(** * pdf-structure-visualizer: the structure compiler and its block-link codec

    A shallow embedding of [compile_parsed_content], [parse_block_links],
    [build_nested_compiled_structure_html], [load_paper] and [update_page]
    from [visualization.py], together with the properties of the
    specification that concern them.

    Python [str] values are modelled as [string], each character read as a
    code point below 256.  Python dictionaries used as maps are [gmap]s, the
    list of resources is a list addressed by position, and the [last_resource]
    alias is the position of the aliased entry in that list.

    [int] refuses a literal of more than 4300 digits.  [Py.int] and the
    decoder [parse_block_links] built on it read a literal of any length;
    they serve where the digits are those of a block position.  Module
    [Limited] holds [int] and the decoder with the limit applied; the page
    builder and [load_paper] run on these, and [limited_parse] relates the two
    decoders. *)

From Stdlib Require Import Ascii String DecimalString DecimalNat ZArith Sorted.
From stdpp Require Import gmap strings list.

Local Open Scope nat_scope.

#[local] Arguments String.append !_ _ / : simpl nomatch.

(** ** Python string primitives *)

Module Py.

(** [str.isspace] on one character, for code points below 256. *)
Definition is_space (c : ascii) : bool :=
  let n := nat_of_ascii c in
  ((9 <=? n) && (n <=? 13)) || ((28 <=? n) && (n <=? 32))
  || (n =? 133) || (n =? 160).

Fixpoint lstrip (p : ascii -> bool) (s : string) : string :=
  match s with
  | EmptyString => EmptyString
  | String c s' => if p c then lstrip p s' else s
  end.

Fixpoint rstrip (p : ascii -> bool) (s : string) : string :=
  match s with
  | EmptyString => EmptyString
  | String c s' =>
      match rstrip p s' with
      | EmptyString => if p c then EmptyString else String c EmptyString
      | r => String c r
      end
  end.

(** [s.strip(chars)]: characters of the set are removed at both ends. *)
Definition strip_chars (p : ascii -> bool) (s : string) : string :=
  rstrip p (lstrip p s).

(** [s.strip()] *)
Definition strip (s : string) : string := strip_chars is_space s.

(** [str.lower] on one character, for code points below 256. *)
Definition lower_char (c : ascii) : ascii :=
  let n := nat_of_ascii c in
  if ((65 <=? n) && (n <=? 90))
     || ((192 <=? n) && (n <=? 222) && negb (n =? 215))
  then ascii_of_nat (n + 32) else c.

Fixpoint lower (s : string) : string :=
  match s with
  | EmptyString => EmptyString
  | String c s' => String (lower_char c) (lower s')
  end.

(** [sep.join(parts)] *)
Definition join (sep : string) (parts : list string) : string :=
  String.concat sep parts.

(** [str(n)] for a non-negative integer. *)
Definition str (n : nat) : string := NilZero.string_of_uint (Nat.to_uint n).

(** Truth value of a string: non-empty. *)
Definition truthy (s : string) : bool :=
  match s with EmptyString => false | String _ _ => true end.

Definition is_digit (c : ascii) : bool :=
  let n := nat_of_ascii c in (48 <=? n) && (n <=? 57).

Fixpoint all_chars (p : ascii -> bool) (s : string) : bool :=
  match s with
  | EmptyString => true
  | String c s' => p c && all_chars p s'
  end.

(** Removes the underscores that [int] accepts between two digits; [None]
    when an underscore is at an end or doubled. *)
Fixpoint digit_groups (prev_digit : bool) (s : string) : option string :=
  match s with
  | EmptyString => if prev_digit then Some EmptyString else None
  | String c s' =>
      if is_digit c then String c <$> digit_groups true s'
      else if (Ascii.eqb c "_") && prev_digit then digit_groups false s'
      else None
  end.

(** The whitespace that [int] skips at both ends of its argument, for code
    points below 256: that of [str.isspace] without the four separators 28 to
    31, which [int] rejects. *)
Definition int_space (c : ascii) : bool :=
  let n := nat_of_ascii c in
  ((9 <=? n) && (n <=? 13)) || (n =? 32) || (n =? 133) || (n =? 160).

(** The digits of an unsigned literal, read in base 10. *)
Definition int_body (t : string) : option Z :=
  d ← digit_groups false t;
  u ← NilZero.uint_of_string d;
  Some (Z.of_nat (Nat.of_uint u)).

(** [int(s)] in base 10, for a literal of any length: surrounding
    whitespace, one optional sign, digits with single underscores between
    them.  [None] stands for [ValueError].  The interpreter refuses a literal
    of more than [sys.get_int_max_str_digits()] digits; that limit is not
    part of this function, which reads what [int] reads once the limit is
    lifted, and is applied by [Limited.int] below. *)
Definition int (s : string) : option Z :=
  match strip_chars int_space s with
  | EmptyString => None
  | String c t =>
      if Ascii.eqb c "+" then int_body t
      else if Ascii.eqb c "-" then Z.opp <$> int_body t
      else int_body (String c t)
  end.

End Py.

(** ** Data model *)

(** A parsed block: the compiler reads [block.get("type", "")] and
    [block.get("text")]; [None] is an absent (or null) field. *)
Record Block := {
  b_type : option string;
  b_text : option string
}.

Record ContentEntry := {
  section : string;
  section_block : string;
  subsection : string;
  subsection_block : string;
  text : string
}.

Record Resource := {
  reference : string;
  content : string;
  content_type : string;
  description : string;
  content_block : nat;
  description_block : option nat
}.

(** The returned dictionary [{"content": ..., "resources": ...}]. *)
Record StructuredOutput := {
  out_content : list ContentEntry;
  out_resources : list Resource
}.

(** A format string with one replacement field, given by the text before
    and after the field: ["[block:{}]"] is [("[block:", "]")]. *)
Record LinkFormat := {
  before_field : string;
  after_field : string
}.

Definition default_block_link_format : LinkFormat :=
  {| before_field := "[block:"; after_field := "]" |}.

(** [block_link_format.format(idx)] *)
Definition format (fmt : LinkFormat) (idx : nat) : string :=
  before_field fmt +:+ Py.str idx +:+ after_field fmt.

(** The local variables of one run of [compile_parsed_content]. *)
Record State := {
  content_sections : list ContentEntry;
  resources : list Resource;
  current_section : string;
  current_section_block : string;
  current_subsection : string;
  current_subsection_block : string;
  current_text_buffer : list string;
  image_counter : nat;
  table_counter : nat;
  last_resource : option nat
}.

Definition initial_state : State :=
  {| content_sections := [];
     resources := [];
     current_section := "section_1";
     current_section_block := "";
     current_subsection := "subsection_1";
     current_subsection_block := "";
     current_text_buffer := [];
     image_counter := 1;
     table_counter := 1;
     last_resource := None |}.

(** ** The compiler *)

Definition current_entry (s : State) (joined_text : string) : ContentEntry :=
  {| section := current_section s;
     section_block := current_section_block s;
     subsection := current_subsection s;
     subsection_block := current_subsection_block s;
     text := joined_text |}.

Definition flush_current_text (s : State) : State :=
  match current_text_buffer s with
  | [] => s
  | _ :: _ =>
      {| content_sections :=
           content_sections s
           ++ [current_entry s (Py.join " " (current_text_buffer s))];
         resources := resources s;
         current_section := current_section s;
         current_section_block := current_section_block s;
         current_subsection := current_subsection s;
         current_subsection_block := current_subsection_block s;
         current_text_buffer := [];
         image_counter := image_counter s;
         table_counter := table_counter s;
         last_resource := last_resource s |}
  end.

Definition set_section (s : State) (name ref : string) : State :=
  {| content_sections := content_sections s;
     resources := resources s;
     current_section := name;
     current_section_block := ref;
     current_subsection := "subsection_1";
     current_subsection_block := "";
     current_text_buffer := current_text_buffer s;
     image_counter := image_counter s;
     table_counter := table_counter s;
     last_resource := last_resource s |}.

Definition set_subsection (s : State) (title ref : string) : State :=
  {| content_sections := content_sections s;
     resources := resources s;
     current_section := current_section s;
     current_section_block := current_section_block s;
     current_subsection := title;
     current_subsection_block := ref;
     current_text_buffer := current_text_buffer s;
     image_counter := image_counter s;
     table_counter := table_counter s;
     last_resource := last_resource s |}.

(** [current_text_buffer.append(item)] *)
Definition buffer_append (s : State) (item : string) : State :=
  {| content_sections := content_sections s;
     resources := resources s;
     current_section := current_section s;
     current_section_block := current_section_block s;
     current_subsection := current_subsection s;
     current_subsection_block := current_subsection_block s;
     current_text_buffer := current_text_buffer s ++ [item];
     image_counter := image_counter s;
     table_counter := table_counter s;
     last_resource := last_resource s |}.

(** The Picture/Table branch: a fresh entry is appended to [resources],
    [last_resource] aliases it, its counter advances and the inline link is
    appended to the buffer. *)
Definition add_resource (s : State) (is_picture : bool)
    (block_ref block_text : string) (idx : nat) : State :=
  let resource_ref :=
    if is_picture then "[image:" +:+ Py.str (image_counter s) +:+ "]"
    else "[table:" +:+ Py.str (table_counter s) +:+ "]" in
  let resource_entry :=
    {| reference := resource_ref;
       content := block_text;
       content_type := if is_picture then "image" else "table";
       description := "";
       content_block := idx;
       description_block := None |} in
  {| content_sections := content_sections s;
     resources := resources s ++ [resource_entry];
     current_section := current_section s;
     current_section_block := current_section_block s;
     current_subsection := current_subsection s;
     current_subsection_block := current_subsection_block s;
     current_text_buffer :=
       current_text_buffer s ++ [block_ref +:+ resource_ref +:+ block_ref];
     image_counter := if is_picture then S (image_counter s) else image_counter s;
     table_counter := if is_picture then table_counter s else S (table_counter s);
     last_resource := Some (length (resources s)) |}.

Definition describe (desc : string) (idx : nat) (r : Resource) : Resource :=
  {| reference := reference r;
     content := content r;
     content_type := content_type r;
     description := desc;
     content_block := content_block r;
     description_block := Some idx |}.

(** The two assignments through the [last_resource] alias: the entry at
    position [k] of [resources] is the one that changes. *)
Definition set_description (s : State) (k : nat) (desc : string) (idx : nat)
    : State :=
  {| content_sections := content_sections s;
     resources := alter (describe desc idx) k (resources s);
     current_section := current_section s;
     current_section_block := current_section_block s;
     current_subsection := current_subsection s;
     current_subsection_block := current_subsection_block s;
     current_text_buffer := current_text_buffer s;
     image_counter := image_counter s;
     table_counter := table_counter s;
     last_resource := last_resource s |}.

Section Compiler.

Variable section_headers_mapping : gmap string string.
Variable block_link_format : LinkFormat.

(** The body of the loop over [enumerate(parsed_content)]. *)
Definition step (s : State) (idx : nat) (block : Block) : State :=
  let block_ref := format block_link_format idx in
  let block_type := default "" (b_type block) in
  let raw_text := default "" (b_text block) in
  let block_text := Py.strip raw_text in
  if String.eqb block_type "Section header" then
    match section_headers_mapping !! block_text with
    | Some mapped =>
        if Py.truthy mapped && negb (String.eqb (Py.lower mapped) "none")
        then set_section (flush_current_text s) (Py.lower mapped) block_ref
        else set_subsection (flush_current_text s) block_text block_ref
    | None => set_subsection (flush_current_text s) block_text block_ref
    end
  else if String.eqb block_type "Picture" || String.eqb block_type "Table" then
    add_resource s (String.eqb block_type "Picture") block_ref block_text idx
  else if String.eqb block_type "Caption" then
    match last_resource s with
    | Some k =>
        match resources s !! k with
        | Some r =>
            if Py.truthy (description r) then s
            else set_description s k (block_ref +:+ block_text +:+ block_ref) idx
        | None => s
        end
    | None =>
        if Py.truthy block_text
        then buffer_append s (block_ref +:+ block_text +:+ block_ref)
        else s
    end
  else
    if Py.truthy block_text
    then buffer_append s (block_ref +:+ block_text +:+ block_ref)
    else s.

(** The loop, started at index [idx]. *)
Fixpoint process (idx : nat) (blocks : list Block) (s : State) : State :=
  match blocks with
  | [] => s
  | block :: rest => process (S idx) rest (step s idx block)
  end.

(** What follows the loop: the last flush, the default entry, the result. *)
Definition finish (s : State) : StructuredOutput :=
  let s' := flush_current_text s in
  {| out_content :=
       match content_sections s' with
       | [] => [current_entry s' ""]
       | _ :: _ => content_sections s'
       end;
     out_resources := resources s' |}.

End Compiler.

Definition compile_parsed_content (parsed_content : list Block)
    (section_headers_mapping : gmap string string)
    (block_link_format : LinkFormat) : StructuredOutput :=
  finish (process section_headers_mapping block_link_format 0 parsed_content
            initial_state).

(** ** The block-link codec *)

(** The marker of the default format, ["[block:" + str(i) + "]"]. *)
Definition marker (i : nat) : string := format default_block_link_format i.

(** One piece of the result of [parse_block_links]: [html.Span(part)] or
    [html.Span(part, id={'type': 'block-link', 'index': block_idx}, ...)]. *)
Inductive Span :=
| PlainSpan (part : string)
| LinkSpan (part : string) (block_idx : Z).

Fixpoint strip_prefix (p s : string) : option string :=
  match p, s with
  | EmptyString, _ => Some s
  | String a p', String b s' => if Ascii.eqb a b then strip_prefix p' s' else None
  | String _ _, EmptyString => None
  end.

(** The longest run of digits at the start of [s], and what follows it. *)
Fixpoint take_digits (s : string) : string * string :=
  match s with
  | EmptyString => (EmptyString, EmptyString)
  | String c s' =>
      if Py.is_digit c
      then let (d, r) := take_digits s' in (String c d, r)
      else (EmptyString, s)
  end.

(** A match of [\[block:(\d+)\]] at the start of [s]: group 1 and the text
    after the match. *)
Definition match_marker (s : string) : option (string * string) :=
  match strip_prefix "[block:" s with
  | Some r =>
      match take_digits r with
      | (String c d, String e rest) =>
          if Ascii.eqb e "]" then Some (String c d, rest) else None
      | _ => None
      end
  | None => None
  end.

Definition prepend_char (c : ascii) (parts : list string) : list string :=
  match parts with
  | [] => [String c EmptyString]
  | p :: ps => String c p :: ps
  end.

(** [re.split(r'(\[block:\d+\])', s)]: the text between the successive
    leftmost matches, with the matched markers in between.  [fuel] bounds the
    number of scanned positions. *)
Fixpoint split_markers (fuel : nat) (s : string) : list string :=
  match fuel with
  | 0 => []
  | S fuel' =>
      match match_marker s with
      | Some (digits, rest) =>
          EmptyString :: ("[block:" +:+ digits +:+ "]") :: split_markers fuel' rest
      | None =>
          match s with
          | EmptyString => [EmptyString]
          | String c s' => prepend_char c (split_markers fuel' s')
          end
      end
  end.

Definition re_split (s : string) : list string :=
  split_markers (S (String.length s)) s.

(** The body of the loop over [parts], with [int] read without its limit
    on the number of digits; [None] is an exception of [int]. *)
Definition block_link (part : string) : option Span :=
  match match_marker part with
  | Some (digits, _) => LinkSpan part <$> Py.int digits
  | None => Some (PlainSpan part)
  end.

(** [parse_block_links(text, block_pages)] with [int] read without its limit
    on the number of digits; [block_pages] is not read.  The function as it
    runs under the limit of the interpreter is [Limited.parse_block_links];
    the two agree on every text whose markers are within the limit. *)
Definition parse_block_links (text : string) : option (list Span) :=
  mapM block_link (re_split text).


(** No match of the marker pattern starts anywhere in [s]. *)
Fixpoint marker_free (s : string) : bool :=
  match match_marker s with
  | Some _ => false
  | None =>
      match s with
      | EmptyString => true
      | String _ s' => marker_free s'
      end
  end.

Definition head_not_digit (s : string) : bool :=
  match s with
  | EmptyString => true
  | String c _ => negb (Py.is_digit c)
  end.


(** ** The limit of [int] on the number of digits *)

Module Limited.

(** [sys.get_int_max_str_digits()], as the interpreter sets it when neither
    its command line nor its environment changes it. *)
Definition int_max_str_digits : nat := 4300.

(** The digits of an unsigned literal, read in base 10; [int] raises
    [ValueError] when there are more digits than the limit, underscores not
    counted. *)
Definition int_body (t : string) : option Z :=
  d ← Py.digit_groups false t;
  if int_max_str_digits <? String.length d then None
  else u ← NilZero.uint_of_string d; Some (Z.of_nat (Nat.of_uint u)).

(** [int(s)] in base 10; [None] stands for [ValueError]. *)
Definition int (s : string) : option Z :=
  match Py.strip_chars Py.int_space s with
  | EmptyString => None
  | String c t =>
      if Ascii.eqb c "+" then int_body t
      else if Ascii.eqb c "-" then Z.opp <$> int_body t
      else int_body (String c t)
  end.

(** The body of the loop over [parts]; [None] is the [ValueError] of
    [int(m.group(1))], which nothing catches. *)
Definition block_link (part : string) : option Span :=
  match match_marker part with
  | Some (digits, _) => LinkSpan part <$> int digits
  | None => Some (PlainSpan part)
  end.

(** [parse_block_links(text, block_pages)]; [block_pages] is not read.
    [None] is an exception raised in the loop. *)
Definition parse_block_links (text : string) : option (list Span) :=
  mapM block_link (re_split text).

End Limited.

(** A part of the split that is a marker has no more digits than [int]
    accepts. *)
Definition part_within_limit (part : string) : bool :=
  match match_marker part with
  | Some (digits, _) => String.length digits <=? Limited.int_max_str_digits
  | None => true
  end.

(** Every marker of [text] has no more digits than [int] accepts. *)
Definition markers_within_limit (text : string) : bool :=
  forallb part_within_limit (re_split text).

Fixpoint repeat_char (c : ascii) (n : nat) : string :=
  match n with
  | 0 => EmptyString
  | S n' => String c (repeat_char c n')
  end.

(** A marker of 4301 digits. *)
Definition long_digits : string := repeat_char "1" 4301.
Definition long_marker : string := "[block:" +:+ long_digits +:+ "]".

(** ** The link of a resource in [build_nested_compiled_structure_html] *)

(** A value read with [res.get("content_block", "")]. *)
Inductive Value :=
| VInt (n : Z)
| VStr (s : string)
| VOther (truth : bool).

Definition value_truthy (v : Value) : bool :=
  match v with
  | VInt n => negb (Z.eqb n 0)
  | VStr s => Py.truthy s
  | VOther b => b
  end.

Fixpoint in_chars (chars : string) (c : ascii) : bool :=
  match chars with
  | EmptyString => false
  | String a chars' => Ascii.eqb a c || in_chars chars' c
  end.

(** The index put in [resource_link_props]; [None] when the properties stay
    empty.  Every exception of the [try] block gives index 0. *)
Definition resource_block_idx (content_block : Value) : option Z :=
  if value_truthy content_block then
    Some match content_block with
         | VInt n => n
         | VStr s =>
             default 0%Z
               (Py.int (Py.strip_chars (in_chars "]")
                          (Py.strip_chars (in_chars "[block:") s)))
         | VOther _ => 0%Z
         end
  else None.

Definition mk_block (ty txt : string) : Block :=
  {| b_type := Some ty; b_text := Some txt |}.

Definition as_type (ty : string) (b : Block) : Block :=
  {| b_type := Some ty; b_text := b_text b |}.

Definition block_type_of (b : Block) : string := default "" (b_type b).
Definition block_text_of (b : Block) : string := Py.strip (default "" (b_text b)).

Definition is_header (b : Block) : bool :=
  String.eqb (block_type_of b) "Section header".
Definition is_resource (b : Block) : bool :=
  String.eqb (block_type_of b) "Picture" || String.eqb (block_type_of b) "Table".
Definition is_caption (b : Block) : bool :=
  String.eqb (block_type_of b) "Caption".

(** A type handled by the last branch of the loop body. *)
Definition generic_type (ty : string) : bool :=
  negb (String.eqb ty "Section header") && negb (String.eqb ty "Picture")
  && negb (String.eqb ty "Table") && negb (String.eqb ty "Caption").

(** ** Example inputs *)

Definition intro_mapping : gmap string string := {[ "Intro" := "introduction" ]}.
Definition empty_name_mapping : gmap string string := {[ "Intro" := "" ]}.

Definition header_then_text : list Block :=
  [mk_block "Section header" "Intro"; mk_block "Text" "hello"].

Definition picture_then_caption : list Block :=
  [mk_block "Picture" "imgdata"; mk_block "Caption" "Fig 1"].

Definition picture_then_blank_caption : list Block :=
  [mk_block "Picture" "imgdata"; mk_block "Caption" "  "].

Definition is_picture (b : Block) : bool := String.eqb (block_type_of b) "Picture".
Definition is_table (b : Block) : bool := String.eqb (block_type_of b) "Table".

(** The resources of one [content_type], in list order. *)
Definition of_type (ty : string) (rs : list Resource) : list Resource :=
  List.filter (fun r => String.eqb (content_type r) ty) rs.

Definition image_ref (n : nat) : string := "[image:" +:+ Py.str n +:+ "]".
Definition table_ref (n : nat) : string := "[table:" +:+ Py.str n +:+ "]".

(** Each counter is one more than the number of resources of its type, and
    these carry the references numbered from 1 in list order. *)
Definition counters_ok (s : State) : Prop :=
  image_counter s = S (length (of_type "image" (resources s)))
  /\ table_counter s = S (length (of_type "table" (resources s)))
  /\ reference <$> of_type "image" (resources s)
     = image_ref <$> seq 1 (length (of_type "image" (resources s)))
  /\ reference <$> of_type "table" (resources s)
     = table_ref <$> seq 1 (length (of_type "table" (resources s))).

(** The position that [last_resource] aliases once the loop has appended
    the resources [rs]. *)
Definition last_of (rs : list Resource) : option nat :=
  match length rs with 0 => None | S n => Some n end.

(** ** Decoded contents *)






(** Whether a resource block came before, as the loop records it. *)
Definition seen_resource (s : State) : bool :=
  match last_resource s with Some _ => true | None => false end.

(** The indices of the blocks that put an item in the text buffer, for a
    loop started at [idx]: resource blocks, captions met before any resource
    block and generic blocks, the latter two when their stripped text is not
    empty.  [seen] tells whether a resource block came before. *)
Fixpoint contributors (idx : nat) (seen : bool) (blocks : list Block) : list nat :=
  match blocks with
  | [] => []
  | b :: rest =>
      if is_header b then contributors (S idx) seen rest
      else if is_resource b then idx :: contributors (S idx) true rest
      else if is_caption b && seen then contributors (S idx) seen rest
      else if Py.truthy (block_text_of b) then idx :: contributors (S idx) seen rest
      else contributors (S idx) seen rest
  end.




Definition mixed_blocks : list Block :=
  [mk_block "Text" "a"; mk_block "Section header" "Intro";
   mk_block "Picture" "img"; mk_block "Caption" "c"; mk_block "Text" "b"].

(** ** Provenance of the output *)

(** The resource blocks with their positions, for a loop started at [idx]. *)
Fixpoint resource_blocks (idx : nat) (blocks : list Block) : list (nat * Block) :=
  match blocks with
  | [] => []
  | b :: rest =>
      if is_resource b then (idx, b) :: resource_blocks (S idx) rest
      else resource_blocks (S idx) rest
  end.

Definition resource_kind (b : Block) : string :=
  if is_picture b then "image" else "table".

(** The fields of a resource that its block fixes once and for all. *)
Definition resource_origin (r : Resource) : nat * string * string :=
  (content_block r, content r, content_type r).

Definition block_origin (ib : nat * Block) : nat * string * string :=
  (ib.1, block_text_of ib.2, resource_kind ib.2).

(** A resource is either undescribed, or described by a caption block that
    comes after its own block. *)
Definition described_by_caption (fmt : LinkFormat) (blocks : list Block)
    (r : Resource) : Prop :=
  (description r = "" /\ description_block r = None)
  \/ exists j c,
       description_block r = Some j /\ content_block r < j
       /\ blocks !! j = Some c /\ is_caption c = true
       /\ description r = format fmt j +:+ block_text_of c +:+ format fmt j.

(** The section fields of an entry: the defaults, or what the header block
    at position [i] set. *)
Definition section_from (mapping : gmap string string) (fmt : LinkFormat)
    (blocks : list Block) (src : option nat) (e : ContentEntry) : Prop :=
  match src with
  | None => section e = "section_1" /\ section_block e = ""
  | Some i =>
      exists b mapped,
        blocks !! i = Some b /\ is_header b = true
        /\ mapping !! block_text_of b = Some mapped
        /\ section e = Py.lower mapped /\ section_block e = format fmt i
  end.

Definition subsection_from (fmt : LinkFormat) (blocks : list Block)
    (src : option nat) (e : ContentEntry) : Prop :=
  match src with
  | None => subsection e = "subsection_1" /\ subsection_block e = ""
  | Some j =>
      exists b,
        blocks !! j = Some b /\ is_header b = true
        /\ subsection e = block_text_of b /\ subsection_block e = format fmt j
  end.

(** Both pairs of fields come from header blocks, the subsection header
    after the section header. *)
Definition entry_from_headers (mapping : gmap string string) (fmt : LinkFormat)
    (blocks : list Block) (e : ContentEntry) : Prop :=
  exists src sub,
    section_from mapping fmt blocks src e
    /\ subsection_from fmt blocks sub e
    /\ forall i j, src = Some i -> sub = Some j -> i < j.

(** A reference in use was issued by one of the two counters. *)
Definition issued (s : State) (ref : string) : Prop :=
  (exists n, n < image_counter s /\ ref = image_ref n)
  \/ (exists n, n < table_counter s /\ ref = table_ref n).

(** ** Shape of a decoded text *)

Definition span_part (sp : Span) : string :=
  match sp with
  | PlainSpan part => part
  | LinkSpan part _ => part
  end.

(** Parts of a split: texts without any marker, separated by markers. *)
Inductive split_shape : list string -> Prop :=
| shape_last (p : string) :
    marker_free p = true -> split_shape [p]
| shape_marker (p d : string) (rest : list string) :
    marker_free p = true ->
    Py.all_chars Py.is_digit d = true -> d <> "" ->
    split_shape rest ->
    split_shape (p :: ("[block:" +:+ d +:+ "]") :: rest).

(** Spans of a decoded text: plain spans without any marker, separated by
    link spans that hold one marker each and the number it spells. *)
Inductive span_shape : list Span -> Prop :=
| spans_last (p : string) :
    marker_free p = true -> span_shape [PlainSpan p]
| spans_link (p d : string) (i : Z) (rest : list Span) :
    marker_free p = true ->
    Py.all_chars Py.is_digit d = true -> d <> "" ->
    Limited.int d = Some i -> (0 <= i)%Z ->
    span_shape rest ->
    span_shape (PlainSpan p :: LinkSpan ("[block:" +:+ d +:+ "]") i :: rest).

(** ** The page built by [build_nested_compiled_structure_html] *)

(** [re.findall(r'\d+', s)[0]]: the first maximal run of digits of [s];
    [None] is the [IndexError] raised when [s] holds no digit. *)
Fixpoint first_digits (s : string) : option string :=
  match s with
  | EmptyString => None
  | String c s' =>
      if Py.is_digit c then Some (take_digits s).1 else first_digits s'
  end.

(** The index put in the link properties of a title; [None] when they stay
    empty: the reference is empty, or the [try] block failed. *)
Definition link_index (block_ref : string) : option Z :=
  if Py.truthy block_ref then first_digits block_ref ≫= Limited.int else None.

(** [d.setdefault(key, []).append(item)], the dictionary being kept as the
    list of its items in insertion order. *)
Fixpoint setdefault_append {A : Type} (key : string) (item : A)
    (d : list (string * list A)) : list (string * list A) :=
  match d with
  | [] => [(key, [item])]
  | (k, items) :: d' =>
      if String.eqb k key then (k, items ++ [item]) :: d'
      else (k, items) :: setdefault_append key item d'
  end.

(** The loop that fills [sections_dict]. *)
Definition group_sections (content : list ContentEntry)
    : list (string * list ContentEntry) :=
  fold_left (fun d item => setdefault_append (section item) item d) content [].

(** The distinct elements of a list, in the order of their first
    occurrence. *)
Fixpoint first_seen (keys : list string) : list string :=
  match keys with
  | [] => []
  | k :: rest => k :: filter (fun k' => k' <> k) (first_seen rest)
  end.

(** [html.Span(text, **link_props)] *)
Record TitleSpan := {
  title_text : string;
  title_link : option Z
}.

(** An item of the inner accordion of a section. *)
Record InnerItem := {
  inner_title : TitleSpan;
  inner_children : list Span;
  inner_item_id : string
}.

(** An item of the outer accordion: a section and its inner accordion. *)
Record OuterItem := {
  outer_title : TitleSpan;
  outer_children : list InnerItem;
  outer_item_id : string
}.

(** An item of the accordion of resources, with its two paragraphs. *)
Record ResourceItem := {
  resource_title : TitleSpan;
  resource_paragraphs : list string;
  resource_item_id : string
}.

Record Page := {
  content_items : list OuterItem;
  resource_items : list ResourceItem
}.

(** Every marker in the text of an entry has no more digits than [int]
    accepts. *)
Definition entry_within_limit (e : ContentEntry) : bool :=
  markers_within_limit (text e).


(** The body of the loop over the items of one section; the call of
    [parse_block_links] is outside the [try] blocks, so its exception is an
    exception of the builder. *)
Definition build_inner (sub_item : ContentEntry) : option InnerItem :=
  children ← Limited.parse_block_links (text sub_item);
  Some {| inner_title :=
            {| title_text := subsection sub_item;
               title_link := link_index (subsection_block sub_item) |};
          inner_children := children;
          inner_item_id := "subitem-" +:+ subsection_block sub_item |}.

(** The body of the loop over [sections_dict.items()]; [items[0]] raises
    on an empty list. *)
Definition build_outer (group : string * list ContentEntry) : option OuterItem :=
  match group.2 with
  | [] => None
  | first :: _ =>
      inner_items ← mapM build_inner group.2;
      Some {| outer_title :=
                {| title_text := group.1;
                   title_link := link_index (section_block first) |};
              outer_children := inner_items;
              outer_item_id := "outeritem-" +:+ section_block first |}
  end.

(** The body of the loop over the resources; [content_block] is the
    integer that the compiler stored. *)
Definition build_resource (res : Resource) : ResourceItem :=
  {| resource_title :=
       {| title_text := "Resource " +:+ reference res;
          title_link := resource_block_idx (VInt (Z.of_nat (content_block res))) |};
     resource_paragraphs :=
       ["Content: " +:+ content res; "Description: " +:+ description res];
     resource_item_id := "resource-" +:+ Py.str (content_block res) |}.

(** [build_nested_compiled_structure_html(compiled_structure, block_pages)]
    on a compiled structure; [block_pages] is not read.  [None] is an
    exception. *)
Definition build_nested_compiled_structure_html (compiled : StructuredOutput)
    : option Page :=
  outer_items ← mapM build_outer (group_sections (out_content compiled));
  Some {| content_items := outer_items;
          resource_items := build_resource <$> out_resources compiled |}.

(** The items stored under [key], none when the key is absent. *)
Fixpoint items_of {A : Type} (key : string) (d : list (string * list A))
    : list A :=
  match d with
  | [] => []
  | (k, items) :: d' => if String.eqb k key then items else items_of key d'
  end.

(** ** Page navigation: [update_page] *)

(** [needle in s] *)
Fixpoint contains (needle s : string) : bool :=
  match strip_prefix needle s with
  | Some _ => true
  | None =>
      match s with
      | EmptyString => false
      | String _ s' => contains needle s'
      end
  end.

(** [s.split(sep)] for a non-empty separator: the text between the
    successive leftmost occurrences of [sep].  [fuel] bounds the number of
    scanned positions. *)
Fixpoint split_fuel (fuel : nat) (sep s : string) : list string :=
  match fuel with
  | 0 => []
  | S fuel' =>
      match strip_prefix sep s with
      | Some rest => EmptyString :: split_fuel fuel' sep rest
      | None =>
          match s with
          | EmptyString => [EmptyString]
          | String c s' => prepend_char c (split_fuel fuel' sep s')
          end
      end
  end.

Definition split (sep s : string) : list string :=
  split_fuel (S (String.length s)) sep s.

(** [str(n)] for an integer. *)
Definition str_int (n : Z) : string :=
  match n with
  | Zneg p => "-" +:+ Py.str (Pos.to_nat p)
  | _ => Py.str (Z.to_nat n)
  end.

(** The double quote. *)
Definition dq : ascii := ascii_of_nat 34.

(** The separator ['"index":'] of the first split. *)
Definition index_key : string := String dq ("index" +:+ String dq ":").

(** [prop_id.split('"index":')[1].split("}")[0].strip().split(',')[0]];
    [None] is the [IndexError] of a missing piece. *)
Definition clicked_block_index (prop_id : string) : option string :=
  piece ← split index_key prop_id !! 1;
  piece ← split "}" piece !! 0;
  split "," (Py.strip piece) !! 0.

(** What the callback does: it raises [PreventUpdate], fails with another
    exception, or returns the new page and the page information. *)
Inductive Outcome :=
| PreventUpdate
| Raised
| Updated (new_page : Z) (page_info : string).

Definition page_info (new_page total_pages : Z) : string :=
  "Page " +:+ str_int new_page +:+ " of " +:+ str_int total_pages.

(** [update_page]: [triggered] holds the [prop_id] of each entry of
    [ctx.triggered]; the click counters are not read. *)
Definition update_page (triggered : list string) (current_page total_pages : Z)
    (paper : option string) (block_pages : gmap string Z) : Outcome :=
  match triggered, paper with
  | triggered_id :: _, Some _ =>
      if contains "first-page-btn" triggered_id then
        Updated 1 (page_info 1 total_pages)
      else if contains "prev-page-btn" triggered_id then
        Updated (Z.max 1 (current_page - 1))
          (page_info (Z.max 1 (current_page - 1)) total_pages)
      else if contains "next-page-btn" triggered_id then
        Updated (Z.min total_pages (current_page + 1))
          (page_info (Z.min total_pages (current_page + 1)) total_pages)
      else if contains "last-page-btn" triggered_id then
        Updated total_pages (page_info total_pages total_pages)
      else if contains "block-link" triggered_id then
        match clicked_block_index triggered_id ≫= Py.int with
        | Some block_index =>
            Updated (default current_page (block_pages !! str_int block_index))
              (page_info
                 (default current_page (block_pages !! str_int block_index))
                 total_pages)
        | None => Raised
        end
      else Updated current_page (page_info current_page total_pages)
  | _, _ => PreventUpdate
  end.


(** The navigation buttons, by the property id of a click. *)
Definition first_click : string := "first-page-btn.n_clicks".
Definition prev_click : string := "prev-page-btn.n_clicks".
Definition next_click : string := "next-page-btn.n_clicks".
Definition last_click : string := "last-page-btn.n_clicks".

(** The new page of an outcome, when there is one. *)
Definition new_page_of (o : Outcome) : option Z :=
  match o with
  | Updated n _ => Some n
  | _ => None
  end.

(** ** Loading a paper: [load_paper] *)

(** A parsed block as stored in [segmentation_results]: the fields the
    compiler reads, and the key ["page_number"]: absent ([None]), present
    with the value [None] ([Some None]), or present with a number. *)
Record StoredBlock := {
  stored_block : Block;
  page_number : option (option Z)
}.

(** [block.get("page_number", 1)]: the default is used for an absent key
    only. *)
Definition get_page_number (block : StoredBlock) : option Z :=
  default (Some 1%Z) (page_number block).

(** The loop that fills [block_pages], started at index [i]. *)
Fixpoint fill_block_pages (i : nat) (blocks : list StoredBlock)
    (block_pages : gmap nat (option Z)) : gmap nat (option Z) :=
  match blocks with
  | [] => block_pages
  | block :: rest =>
      fill_block_pages (S i) rest (<[i := get_page_number block]> block_pages)
  end.

(** The values returned for a selected paper. *)
Record LoadedPaper := {
  selected_paper : string;
  compiled_structure : StructuredOutput;
  block_pages_store : gmap nat (option Z);
  total_pages_store : Z;
  current_page_store : Z;
  compiled_html : Page
}.

(** What the callback does.  Without a selected paper it returns
    [dash.no_update] for the five stored values and the empty string for the
    page; otherwise it fails with the exception of the page builder, or
    returns its six values. *)
Inductive LoadOutcome :=
| NoPaper
| LoadRaised
| Loaded (values : LoadedPaper).

(** [load_paper(paper)]: the two module-level dictionaries and the page
    count of the PDF file are inputs. *)
Definition load_paper (segmentation_results : gmap string (list StoredBlock))
    (columns_mapping : gmap string (gmap string string))
    (get_pdf_page_count : string -> Z) (paper : option string)
    : LoadOutcome :=
  match paper with
  | None => NoPaper
  | Some paper =>
      let parsed_content := default [] (segmentation_results !! paper) in
      let mapping := default ∅ (columns_mapping !! paper) in
      let compiled :=
        compile_parsed_content (stored_block <$> parsed_content) mapping
          default_block_link_format in
      let block_pages := fill_block_pages 0 parsed_content ∅ in
      let total_pages := get_pdf_page_count paper in
      match build_nested_compiled_structure_html compiled with
      | Some html =>
          Loaded {| selected_paper := paper;
                    compiled_structure := compiled;
                    block_pages_store := block_pages;
                    total_pages_store := total_pages;
                    current_page_store := 1;
                    compiled_html := html |}
      | None => LoadRaised
      end
  end.

(** A store with one paper of three blocks: a page number, an empty page
    number, and no page number. *)
Definition stored_papers : gmap string (list StoredBlock) :=
  {[ "paper" :=
       [{| stored_block := mk_block "Text" "a"; page_number := Some (Some 3%Z) |};
        {| stored_block := mk_block "Text" "b"; page_number := Some None |};
        {| stored_block := mk_block "Text" "c"; page_number := None |}] ]}.

(** ** Facts on strings *)

Lemma string_app_nil_r (s : string) : s +:+ "" = s.
Proof. induction s as [|c s IH]; [done|]. cbn [String.append]. by rewrite IH. Qed.

Lemma string_app_assoc (a b c : string) : (a +:+ b) +:+ c = a +:+ b +:+ c.
Proof. induction a as [|x a IH]; [done|]. cbn [String.append]. by rewrite IH. Qed.

Lemma string_app_cons (c : ascii) (a b : string) :
  String c a +:+ b = String c (a +:+ b).
Proof. done. Qed.

Lemma truthy_true (s : string) : Py.truthy s = true <-> s <> "".
Proof. destruct s; cbn; split; congruence. Qed.

Lemma truthy_false (s : string) : Py.truthy s = false <-> s = "".
Proof. destruct s; cbn; split; congruence. Qed.

Lemma truthy_app_l (a b : string) : Py.truthy a = true -> Py.truthy (a +:+ b) = true.
Proof. by destruct a. Qed.

Lemma to_uint_nonnil (n : nat) : Nat.to_uint n <> Decimal.Nil.
Proof.
  rewrite <- (Unsigned.of_to n) at 1. rewrite Unsigned.to_of.
  apply DecimalFacts.unorm_nonnil.
Qed.

Lemma str_truthy (n : nat) : Py.truthy (Py.str n) = true.
Proof.
  unfold Py.str. pose proof (to_uint_nonnil n) as Hn.
  destruct (Nat.to_uint n); done.
Qed.

Lemma format_truthy (fmt : LinkFormat) (idx : nat) :
  Py.truthy (format fmt idx) = true.
Proof.
  unfold format. destruct (before_field fmt); [|done].
  cbn [String.append]. apply truthy_app_l, str_truthy.
Qed.

Lemma wrapped_truthy (fmt : LinkFormat) (idx : nat) (t : string) :
  Py.truthy (format fmt idx +:+ t +:+ format fmt idx) = true.
Proof. apply truthy_app_l, format_truthy. Qed.

Lemma lstrip_all (p : ascii -> bool) (s : string) :
  Py.all_chars p s = true -> Py.lstrip p s = "".
Proof.
  induction s as [|c s IH]; [done|]. cbn. destruct (p c); [|done]. exact IH.
Qed.

Lemma strip_whitespace_only (s : string) :
  Py.all_chars Py.is_space s = true -> Py.strip s = "".
Proof. intros H. unfold Py.strip, Py.strip_chars. by rewrite lstrip_all. Qed.

Lemma rstrip_idemp (p : ascii -> bool) (s : string) :
  Py.rstrip p (Py.rstrip p s) = Py.rstrip p s.
Proof.
  induction s as [|c s IH]; [done|]. cbn.
  destruct (Py.rstrip p s) as [|d r] eqn:Hr.
  - destruct (p c) eqn:Hc; [done|]. cbn. by rewrite Hc.
  - cbn. cbn in IH. by rewrite IH.
Qed.

Lemma lstrip_head (p : ascii -> bool) (s : string) :
  match Py.lstrip p s with "" => True | String c _ => p c = false end.
Proof.
  induction s as [|c s IH]; [done|]. cbn. destruct (p c) eqn:Hc; [done|].
  exact Hc.
Qed.

Lemma lstrip_rstrip_head (p : ascii -> bool) (s : string) :
  match s with "" => True | String c _ => p c = false end ->
  Py.lstrip p (Py.rstrip p s) = Py.rstrip p s.
Proof.
  destruct s as [|c s]; [done|]. intros Hc. cbn.
  destruct (Py.rstrip p s); cbn; rewrite ?Hc; cbn; by rewrite ?Hc.
Qed.

Lemma strip_idemp (s : string) : Py.strip (Py.strip s) = Py.strip s.
Proof.
  unfold Py.strip, Py.strip_chars.
  rewrite lstrip_rstrip_head by apply lstrip_head.
  apply rstrip_idemp.
Qed.

(** ** Facts on the loop body *)

Section CompilerFacts.

Context (mapping : gmap string string) (fmt : LinkFormat).

Abbreviation do_step := (step mapping fmt).
Abbreviation do_process := (process mapping fmt).

Lemma flush_content (s : State) :
  content_sections (flush_current_text s)
  = content_sections s
    ++ match current_text_buffer s with
       | [] => []
       | _ :: _ => [current_entry s (Py.join " " (current_text_buffer s))]
       end.
Proof.
  unfold flush_current_text. destruct (current_text_buffer s); cbn; [|done].
  by rewrite app_nil_r.
Qed.

Lemma flush_buffer (s : State) : current_text_buffer (flush_current_text s) = [].
Proof.
  unfold flush_current_text. by destruct (current_text_buffer s) eqn:E.
Qed.

Lemma flush_other (s : State) :
  resources (flush_current_text s) = resources s
  /\ current_section (flush_current_text s) = current_section s
  /\ current_section_block (flush_current_text s) = current_section_block s
  /\ current_subsection (flush_current_text s) = current_subsection s
  /\ current_subsection_block (flush_current_text s) = current_subsection_block s
  /\ image_counter (flush_current_text s) = image_counter s
  /\ table_counter (flush_current_text s) = table_counter s
  /\ last_resource (flush_current_text s) = last_resource s.
Proof. unfold flush_current_text. by destruct (current_text_buffer s). Qed.

(** The loop body reads a block only through its type (absent: the empty
    string) and its stripped text (absent: the empty string). *)
Lemma step_ext (s : State) (idx : nat) (b1 b2 : Block) :
  block_type_of b1 = block_type_of b2 ->
  block_text_of b1 = block_text_of b2 ->
  do_step s idx b1 = do_step s idx b2.
Proof.
  unfold block_type_of, block_text_of, step. by intros -> ->.
Qed.

Lemma step_header_section (s : State) (idx : nat) (b : Block) (mapped : string) :
  is_header b = true ->
  mapping !! block_text_of b = Some mapped ->
  mapped <> "" -> Py.lower mapped <> "none" ->
  do_step s idx b
  = set_section (flush_current_text s) (Py.lower mapped) (format fmt idx).
Proof.
  unfold is_header, block_type_of, block_text_of, step.
  intros -> -> Hne Hsent.
  apply truthy_true in Hne as ->. apply String.eqb_neq in Hsent as ->. done.
Qed.

Lemma step_header_subsection (s : State) (idx : nat) (b : Block) :
  is_header b = true ->
  (mapping !! block_text_of b = None
   \/ exists mapped, mapping !! block_text_of b = Some mapped
                     /\ (mapped = "" \/ Py.lower mapped = "none")) ->
  do_step s idx b
  = set_subsection (flush_current_text s) (block_text_of b) (format fmt idx).
Proof.
  unfold is_header, block_type_of, block_text_of, step.
  intros -> [->|(mapped & -> & [->|Hs])]; [done..|].
  apply String.eqb_eq in Hs as ->. by rewrite andb_false_r.
Qed.

Lemma step_resource (s : State) (idx : nat) (b : Block) :
  is_resource b = true ->
  do_step s idx b
  = add_resource s (String.eqb (block_type_of b) "Picture") (format fmt idx)
      (block_text_of b) idx.
Proof.
  unfold is_resource, block_type_of, block_text_of, step. intros H.
  destruct (String.eqb (default "" (b_type b)) "Section header") eqn:Hh.
  { apply String.eqb_eq in Hh. rewrite Hh in H. done. }
  by rewrite H.
Qed.

Lemma step_generic (s : State) (idx : nat) (b : Block) :
  generic_type (block_type_of b) = true ->
  do_step s idx b
  = if Py.truthy (block_text_of b)
    then buffer_append s (format fmt idx +:+ block_text_of b +:+ format fmt idx)
    else s.
Proof.
  unfold generic_type, block_type_of, block_text_of, step.
  intros H. repeat (apply andb_prop in H as [H ?]).
  apply negb_true_iff in H. repeat match goal with
    | H : negb _ = true |- _ => apply negb_true_iff in H end.
  by repeat match goal with H : String.eqb _ _ = false |- _ => rewrite H; clear H end.
Qed.

Lemma caption_not_others (b : Block) :
  is_caption b = true -> is_header b = false /\ is_resource b = false.
Proof.
  unfold is_caption, is_header, is_resource.
  intros H%String.eqb_eq. by rewrite H.
Qed.

Lemma step_caption (s : State) (idx : nat) (b : Block) :
  is_caption b = true ->
  do_step s idx b
  = match last_resource s with
    | Some k =>
        match resources s !! k with
        | Some r =>
            if Py.truthy (description r) then s
            else set_description s k
                   (format fmt idx +:+ block_text_of b +:+ format fmt idx) idx
        | None => s
        end
    | None =>
        if Py.truthy (block_text_of b)
        then buffer_append s (format fmt idx +:+ block_text_of b +:+ format fmt idx)
        else s
    end.
Proof.
  intros Hc. destruct (caption_not_others b Hc) as [Hh Hr].
  unfold is_caption, is_header, is_resource, block_type_of in *.
  unfold block_text_of, step. by rewrite Hh, Hr, Hc.
Qed.

Lemma block_cases (b : Block) :
  (is_header b = true /\ is_resource b = false /\ is_caption b = false)
  \/ (is_header b = false /\ is_resource b = true /\ is_caption b = false)
  \/ (is_header b = false /\ is_resource b = false /\ is_caption b = true)
  \/ (is_header b = false /\ is_resource b = false /\ is_caption b = false
      /\ generic_type (block_type_of b) = true).
Proof.
  unfold is_header, is_resource, is_caption, generic_type.
  destruct (String.eqb_spec (block_type_of b) "Section header") as [->|_];
    [by left|].
  destruct (String.eqb_spec (block_type_of b) "Picture") as [->|_];
    [by right; left|].
  destruct (String.eqb_spec (block_type_of b) "Table") as [->|_];
    [by right; left|].
  destruct (String.eqb_spec (block_type_of b) "Caption") as [_|_];
    [by right; right; left|].
  by right; right; right.
Qed.

Lemma step_header (s : State) (idx : nat) (b : Block) :
  is_header b = true ->
  (exists name, do_step s idx b
                = set_section (flush_current_text s) name (format fmt idx))
  \/ do_step s idx b
     = set_subsection (flush_current_text s) (block_text_of b) (format fmt idx).
Proof.
  intros Hh. destruct (mapping !! block_text_of b) as [mapped|] eqn:Hm.
  - destruct (decide (mapped = "")) as [->|Hne].
    { right. apply step_header_subsection; eauto. }
    destruct (decide (Py.lower mapped = "none")) as [Hs|Hs].
    { right. apply step_header_subsection; eauto. }
    left. exists (Py.lower mapped). by apply step_header_section.
  - right. apply step_header_subsection; auto.
Qed.

(** A block contributes to the resource list only when it is a resource or
    a caption; the alias moves only on a resource. *)
Lemma step_keeps_resources (s : State) (idx : nat) (b : Block) :
  is_resource b = false -> is_caption b = false ->
  resources (do_step s idx b) = resources s.
Proof.
  intros Hr Hc.
  destruct (block_cases b) as [(Hh&_)|[(_&?&_)|[(_&_&?)|(_&_&_&Hg)]]];
    try congruence.
  - destruct (step_header s idx b Hh) as [[name ->]| ->]; cbn;
      apply flush_other.
  - rewrite step_generic by done. by destruct (Py.truthy _).
Qed.

Lemma step_keeps_last_resource (s : State) (idx : nat) (b : Block) :
  is_resource b = false ->
  last_resource (do_step s idx b) = last_resource s.
Proof.
  intros Hr.
  destruct (block_cases b) as [(Hh&_)|[(_&?&_)|[(_&_&Hc)|(_&_&_&Hg)]]];
    try congruence.
  - destruct (step_header s idx b Hh) as [[name ->]| ->]; cbn;
      apply flush_other.
  - rewrite step_caption by done.
    destruct (last_resource s) as [k|] eqn:Hk.
    + destruct (resources s !! k) as [r|]; [|done].
      by destruct (Py.truthy (description r)).
    + by destruct (Py.truthy _).
  - rewrite step_generic by done. by destruct (Py.truthy _).
Qed.

Lemma process_app (idx : nat) (l1 l2 : list Block) (s : State) :
  do_process idx (l1 ++ l2) s
  = do_process (idx + length l1) l2 (do_process idx l1 s).
Proof.
  revert idx s. induction l1 as [|b l1 IH]; intros idx s; cbn.
  - by rewrite Nat.add_0_r.
  - rewrite IH. f_equal. lia.
Qed.

Lemma process_keeps_resources (idx : nat) (l : list Block) (s : State) :
  forallb (fun b => negb (is_resource b) && negb (is_caption b)) l = true ->
  resources (do_process idx l s) = resources s
  /\ last_resource (do_process idx l s) = last_resource s.
Proof.
  revert idx s. induction l as [|b l IH]; intros idx s H; [done|].
  cbn in H. apply andb_prop in H as [Hb Hl].
  apply andb_prop in Hb as [Hr%negb_true_iff Hc%negb_true_iff].
  cbn. destruct (IH (S idx) (do_step s idx b) Hl) as [-> ->].
  split; [by apply step_keeps_resources|by apply step_keeps_last_resource].
Qed.

Lemma process_keeps_last_resource (idx : nat) (l : list Block) (s : State) :
  forallb (fun b => negb (is_resource b)) l = true ->
  last_resource (do_process idx l s) = last_resource s.
Proof.
  revert idx s. induction l as [|b l IH]; intros idx s H; [done|].
  cbn in H. apply andb_prop in H as [Hr%negb_true_iff Hl].
  cbn. rewrite IH by done. by apply step_keeps_last_resource.
Qed.

(** The alias always designates the last entry of [resources]. *)
Lemma step_alias (s : State) (idx : nat) (b : Block) :
  last_resource s = last_of (resources s) ->
  last_resource (do_step s idx b) = last_of (resources (do_step s idx b)).
Proof.
  intros Hinv.
  destruct (block_cases b) as [(Hh&_)|[(_&Hr&_)|[(_&_&Hc)|(_&Hr&Hc&_)]]].
  - destruct (step_header s idx b Hh) as [[name ->]| ->]; cbn;
      destruct (flush_other s) as (-> & _ & _ & _ & _ & _ & _ & ->); done.
  - rewrite step_resource by done. cbn. unfold last_of.
    by rewrite length_app, Nat.add_1_r.
  - rewrite step_caption by done.
    destruct (last_resource s) as [k|] eqn:Hk.
    + destruct (resources s !! k) as [r|]; [|by rewrite Hk].
      destruct (Py.truthy (description r)); [by rewrite Hk|].
      cbn. unfold last_of. rewrite length_alter. by rewrite Hk.
    + destruct (Py.truthy _); cbn; by rewrite Hk.
  - by rewrite step_keeps_last_resource, step_keeps_resources.
Qed.

Lemma process_alias (idx : nat) (l : list Block) (s : State) :
  last_resource s = last_of (resources s) ->
  last_resource (do_process idx l s) = last_of (resources (do_process idx l s)).
Proof.
  revert idx s. induction l as [|b l IH]; intros idx s H; [done|].
  cbn. by apply IH, step_alias.
Qed.

(** Once described, a resource never changes again. *)
Lemma step_described_stable (s : State) (idx : nat) (b : Block)
    (k : nat) (r : Resource) :
  resources s !! k = Some r -> description r <> "" ->
  resources (do_step s idx b) !! k = Some r.
Proof.
  intros Hk Hd.
  destruct (block_cases b) as [(Hh&Hr&Hc)|[(_&Hr&_)|[(_&_&Hc)|(_&Hr&Hc&_)]]].
  - by rewrite step_keeps_resources.
  - rewrite step_resource by done. cbn. by apply lookup_app_l_Some.
  - rewrite step_caption by done.
    destruct (last_resource s) as [k'|].
    + destruct (resources s !! k') as [r'|] eqn:Hk'; [|done].
      destruct (Py.truthy (description r')) eqn:Ht; [done|].
      cbn. destruct (decide (k' = k)) as [->|Hne].
      * apply truthy_false in Ht. congruence.
      * by rewrite list_lookup_alter_ne.
    + by destruct (Py.truthy _).
  - by rewrite step_keeps_resources.
Qed.

Lemma process_described_stable (idx : nat) (l : list Block) (s : State)
    (k : nat) (r : Resource) :
  resources s !! k = Some r -> description r <> "" ->
  resources (do_process idx l s) !! k = Some r.
Proof.
  revert idx s. induction l as [|b l IH]; intros idx s Hk Hd; [done|].
  cbn. apply IH; [|done]. by apply step_described_stable.
Qed.

(** The resource list grows by one entry for each resource block. *)
Lemma process_resources_length (idx : nat) (l : list Block) (s : State) :
  length (resources (do_process idx l s))
  = length (resources s) + length (List.filter is_resource l).
Proof.
  revert idx s. induction l as [|b l IH]; intros idx s; cbn; [lia|].
  rewrite IH.
  destruct (block_cases b) as [(Hh&Hr&Hc)|[(_&Hr&_)|[(_&Hr&Hc)|(_&Hr&Hc&_)]]];
    rewrite Hr.
  - rewrite step_keeps_resources by done. lia.
  - rewrite step_resource by done. cbn. rewrite length_app. cbn. lia.
  - rewrite step_caption by done.
    destruct (last_resource s) as [k|].
    + destruct (resources s !! k) as [r|]; [|lia].
      destruct (Py.truthy (description r)); [lia|].
      cbn. rewrite length_alter. lia.
    + destruct (Py.truthy _); cbn; lia.
  - rewrite step_keeps_resources by done. lia.
Qed.

(** Entries before the aliased one are out of reach of every later block. *)
Lemma step_older_stable (s : State) (idx : nat) (b : Block) (k : nat) :
  last_resource s = last_of (resources s) ->
  S k < length (resources s) ->
  resources (do_step s idx b) !! k = resources s !! k
  /\ S k < length (resources (do_step s idx b)).
Proof.
  intros Hinv Hk.
  destruct (block_cases b) as [(Hh&Hr&Hc)|[(_&Hr&_)|[(_&_&Hc)|(_&Hr&Hc&_)]]].
  - by rewrite step_keeps_resources.
  - rewrite step_resource by done. cbn. rewrite length_app. split; [|lia].
    apply lookup_app_l. lia.
  - rewrite step_caption by done. rewrite Hinv. unfold last_of.
    destruct (length (resources s)) as [|n] eqn:Hn; [lia|].
    destruct (resources s !! n) as [r|]; [|by rewrite Hn].
    destruct (Py.truthy (description r)); [by rewrite Hn|].
    cbn. rewrite length_alter, Hn. split; [|lia].
    apply list_lookup_alter_ne. lia.
  - by rewrite step_keeps_resources.
Qed.

Lemma process_older_stable (idx : nat) (l : list Block) (s : State) (k : nat) :
  last_resource s = last_of (resources s) ->
  S k < length (resources s) ->
  resources (do_process idx l s) !! k = resources s !! k.
Proof.
  revert idx s. induction l as [|b l IH]; intros idx s Hinv Hk; [done|].
  cbn. destruct (step_older_stable s idx b k Hinv Hk) as [<- Hlen].
  apply IH; [by apply step_alias|done].
Qed.

(** The state right after a resource block met at position [length pre]. *)
Lemma process_to_resource (pre : list Block) (r : Block) :
  is_resource r = true ->
  let s := do_step (do_process 0 pre initial_state) (length pre) r in
  let k := length (List.filter is_resource pre) in
  length (resources s) = S k
  /\ last_resource s = Some k
  /\ last_resource s = last_of (resources s)
  /\ exists ref ty,
       resources s !! k
       = Some {| reference := ref; content := block_text_of r;
                 content_type := ty; description := "";
                 content_block := length pre; description_block := None |}.
Proof.
  intros Hr s k. subst s.
  pose proof (process_resources_length 0 pre initial_state) as Hlen.
  cbn in Hlen. fold k in Hlen.
  rewrite step_resource by done. cbn. rewrite length_app, Hlen. cbn.
  split; [lia|]. split; [done|]. split.
  { unfold last_of. rewrite length_app, Hlen. cbn. by rewrite Nat.add_1_r. }
  eexists _, _. rewrite <- Hlen. apply list_lookup_middle. done.
Qed.

(** *** Reference counters *)

Lemma of_type_describe (ty desc : string) (i k : nat) (rs : list Resource) :
  reference <$> of_type ty (alter (describe desc i) k rs)
  = reference <$> of_type ty rs.
Proof.
  revert k. induction rs as [|r rs IH]; intros k; [done|].
  destruct k as [|k]; cbn.
  - by destruct (String.eqb (content_type r) ty).
  - specialize (IH k). unfold of_type in IH.
    destruct (String.eqb (content_type r) ty); cbn; by rewrite IH.
Qed.

Lemma of_type_describe_length (ty desc : string) (i k : nat)
    (rs : list Resource) :
  length (of_type ty (alter (describe desc i) k rs)) = length (of_type ty rs).
Proof.
  rewrite <- (length_fmap reference), of_type_describe. apply length_fmap.
Qed.

Lemma step_keeps_references (s : State) (idx : nat) (b : Block) (ty : string) :
  is_resource b = false ->
  reference <$> of_type ty (resources (do_step s idx b))
  = reference <$> of_type ty (resources s).
Proof.
  intros Hr. destruct (is_caption b) eqn:Hc;
    [|by rewrite step_keeps_resources].
  rewrite step_caption by done.
  destruct (last_resource s) as [k|].
  - destruct (resources s !! k) as [r|]; [|done].
    destruct (Py.truthy (description r)); [done|]. apply of_type_describe.
  - by destruct (Py.truthy _).
Qed.

Lemma step_keeps_counters (s : State) (idx : nat) (b : Block) :
  is_resource b = false ->
  image_counter (do_step s idx b) = image_counter s
  /\ table_counter (do_step s idx b) = table_counter s.
Proof.
  intros Hr.
  destruct (block_cases b) as [(Hh&_)|[(_&?&_)|[(_&_&Hc)|(_&_&_&Hg)]]];
    try congruence.
  - destruct (step_header s idx b Hh) as [[name ->]| ->]; cbn;
      by destruct (flush_other s) as (_ & _ & _ & _ & _ & -> & -> & _).
  - rewrite step_caption by done.
    destruct (last_resource s) as [k|].
    + destruct (resources s !! k) as [r|]; [|done].
      by destruct (Py.truthy (description r)).
    + by destruct (Py.truthy _).
  - rewrite step_generic by done. by destruct (Py.truthy _).
Qed.

Lemma step_counters_ok (s : State) (idx : nat) (b : Block) :
  counters_ok s -> counters_ok (do_step s idx b).
Proof.
  intros (Hi & Ht & Hri & Hrt). unfold counters_ok.
  destruct (is_resource b) eqn:Hr.
  - rewrite step_resource by done. unfold of_type. cbn.
    rewrite !List.filter_app. fold (of_type "image" (resources s)).
    fold (of_type "table" (resources s)).
    destruct (String.eqb (block_type_of b) "Picture"); cbn;
      rewrite ?app_nil_r, ?length_app, ?fmap_app; cbn;
      rewrite ?Nat.add_1_r, ?seq_S, ?fmap_app; cbn.
    + rewrite Hri, Hi. done.
    + rewrite Hrt, Ht. done.
  - destruct (step_keeps_counters s idx b Hr) as [-> ->].
    pose proof (step_keeps_references s idx b "image" Hr) as Ei.
    pose proof (step_keeps_references s idx b "table" Hr) as Et.
    pose proof (f_equal length Ei) as Li. pose proof (f_equal length Et) as Lt.
    rewrite !length_fmap in Li, Lt. by rewrite Ei, Et, Li, Lt.
Qed.

Lemma process_counters_ok (idx : nat) (l : list Block) (s : State) :
  counters_ok s -> counters_ok (do_process idx l s).
Proof.
  revert idx s. induction l as [|b l IH]; intros idx s H; [done|].
  cbn. by apply IH, step_counters_ok.
Qed.

Lemma process_counters (idx : nat) (l : list Block) (s : State) :
  image_counter (do_process idx l s)
  = image_counter s + length (List.filter is_picture l)
  /\ table_counter (do_process idx l s)
     = table_counter s + length (List.filter is_table l).
Proof.
  revert idx s. induction l as [|b l IH]; intros idx s; cbn; [lia|].
  destruct (IH (S idx) (do_step s idx b)) as [-> ->].
  destruct (is_resource b) eqn:Hr.
  - rewrite step_resource by done. cbn. unfold is_picture, is_table.
    unfold is_resource in Hr.
    destruct (String.eqb_spec (block_type_of b) "Picture") as [->|Hp]; cbn.
    + lia.
    + cbn in Hr. rewrite Hr. cbn. lia.
  - destruct (step_keeps_counters s idx b Hr) as [-> ->].
    unfold is_resource in Hr. apply orb_false_elim in Hr as [Hp Ht].
    unfold is_picture, is_table. rewrite Hp, Ht. lia.
Qed.

(** Only a header block appends a content entry. *)
Lemma step_keeps_content (s : State) (idx : nat) (b : Block) :
  is_header b = false ->
  content_sections (do_step s idx b) = content_sections s.
Proof.
  intros Hh.
  destruct (block_cases b) as [(?&_)|[(_&Hr&_)|[(_&_&Hc)|(_&_&_&Hg)]]];
    try congruence.
  - by rewrite step_resource.
  - rewrite step_caption by done.
    destruct (last_resource s) as [k|].
    + destruct (resources s !! k) as [r|]; [|done].
      by destruct (Py.truthy (description r)).
    + by destruct (Py.truthy _).
  - rewrite step_generic by done. by destruct (Py.truthy _).
Qed.

(** *** Wrapped spans *)

(** Every string that a block adds to the buffer is bracketed by the
    marker of that block. *)
Lemma step_buffer_wrapped (s : State) (idx : nat) (b : Block) (item : string) :
  item ∈ current_text_buffer (do_step s idx b) ->
  item ∈ current_text_buffer s
  \/ exists t, item = format fmt idx +:+ t +:+ format fmt idx.
Proof.
  destruct (block_cases b) as [(Hh&_)|[(_&Hr&_)|[(_&_&Hc)|(_&_&_&Hg)]]].
  - destruct (step_header s idx b Hh) as [[name ->]| ->]; cbn;
      rewrite flush_buffer; by intros ?%elem_of_nil.
  - rewrite step_resource by done. cbn.
    intros [?|Hx%list_elem_of_singleton]%elem_of_app; subst; eauto.
  - rewrite step_caption by done.
    destruct (last_resource s) as [k|].
    + destruct (resources s !! k) as [r|]; [|by left].
      destruct (Py.truthy (description r)); by left.
    + destruct (Py.truthy _); [|by left]. cbn.
      intros [?|Hx%list_elem_of_singleton]%elem_of_app; subst; eauto.
  - rewrite step_generic by done.
    destruct (Py.truthy _); [|by left]. cbn.
    intros [?|Hx%list_elem_of_singleton]%elem_of_app; subst; eauto.
Qed.

(** Every description that a block sets is bracketed by the marker of
    that block. *)
Lemma step_description_wrapped (s : State) (idx : nat) (b : Block)
    (r : Resource) :
  r ∈ resources (do_step s idx b) ->
  r ∈ resources s \/ description r = ""
  \/ exists t, description r = format fmt idx +:+ t +:+ format fmt idx.
Proof.
  destruct (block_cases b) as [(Hh&Hr&Hc)|[(_&Hr&_)|[(_&_&Hc)|(_&Hr&Hc&_)]]].
  - rewrite step_keeps_resources by done. by left.
  - rewrite step_resource by done. cbn.
    intros [?|Hx%list_elem_of_singleton]%elem_of_app; subst; eauto.
  - rewrite step_caption by done.
    destruct (last_resource s) as [k|].
    + destruct (resources s !! k) as [r0|] eqn:Hk; [|by left].
      destruct (Py.truthy (description r0)); [by left|]. cbn.
      intros [j Hj]%list_elem_of_lookup. rewrite list_lookup_alter in Hj.
      destruct (decide (k = j)) as [<-|_].
      * rewrite Hk in Hj. injection Hj as <-. cbn. eauto.
      * left. apply list_elem_of_lookup. eauto.
    + destruct (Py.truthy _); by left.
  - rewrite step_keeps_resources by done. by left.
Qed.

End CompilerFacts.

(** ** Facts on the codec *)

Lemma string_length_app (a b : string) :
  String.length (a +:+ b) = String.length a + String.length b.
Proof. induction a as [|c a IH]; cbn; [done|]. by rewrite IH. Qed.

Lemma digit_is_plain (c : ascii) :
  Py.is_digit c = true ->
  Ascii.eqb c "+" = false /\ Ascii.eqb c "-" = false /\ Ascii.eqb c "_" = false
  /\ Py.is_space c = false /\ Ascii.eqb c "[" = false.
Proof.
  intros H. destruct c as [[] [] [] [] [] [] [] []];
    vm_compute in H; try discriminate H; vm_compute; done.
Qed.

Lemma uint_of_char_digit (c : ascii) (d : Decimal.uint) :
  Py.is_digit c = true -> is_Some (uint_of_char c (Some d)).
Proof.
  intros H. destruct c as [[] [] [] [] [] [] [] []];
    vm_compute in H; try discriminate H; cbn; eauto.
Qed.

Lemma uint_of_string_digits (s : string) :
  Py.all_chars Py.is_digit s = true -> is_Some (NilEmpty.uint_of_string s).
Proof.
  induction s as [|c s IH]; cbn; [eauto|].
  intros [Hc Hs]%andb_prop. destruct (IH Hs) as [d ->].
  by apply uint_of_char_digit.
Qed.

Lemma string_of_uint_digits (d : Decimal.uint) :
  Py.all_chars Py.is_digit (NilEmpty.string_of_uint d) = true.
Proof. induction d; cbn; done. Qed.

Lemma str_unfold (n : nat) : Py.str n = NilEmpty.string_of_uint (Nat.to_uint n).
Proof.
  unfold Py.str. pose proof (to_uint_nonnil n). by destruct (Nat.to_uint n).
Qed.

Lemma str_digits (n : nat) : Py.all_chars Py.is_digit (Py.str n) = true.
Proof. rewrite str_unfold. apply string_of_uint_digits. Qed.

Lemma all_chars_impl (p q : ascii -> bool) (s : string) :
  (forall c, p c = true -> q c = true) ->
  Py.all_chars p s = true -> Py.all_chars q s = true.
Proof.
  intros Hpq. induction s as [|c s IH]; cbn; [done|].
  intros [Hc Hs]%andb_prop. by rewrite (Hpq c Hc), IH.
Qed.

Lemma rstrip_none (p : ascii -> bool) (s : string) :
  Py.all_chars (fun c => negb (p c)) s = true -> Py.rstrip p s = s.
Proof.
  induction s as [|c s IH]; cbn; [done|].
  intros [Hc%negb_true_iff Hs]%andb_prop. rewrite (IH Hs), Hc. by destruct s.
Qed.

Lemma strip_chars_none (p : ascii -> bool) (s : string) :
  Py.all_chars (fun c => negb (p c)) s = true -> Py.strip_chars p s = s.
Proof.
  intros H. unfold Py.strip_chars.
  assert (Py.lstrip p s = s) as ->; [|by apply rstrip_none].
  destruct s as [|c s]; [done|]. cbn in *.
  apply andb_prop in H as [Hc%negb_true_iff _]. by rewrite Hc.
Qed.

Lemma strip_digits (s : string) :
  Py.all_chars Py.is_digit s = true -> Py.strip s = s.
Proof.
  intros H. apply strip_chars_none. revert H. apply all_chars_impl.
  intros c Hc. apply negb_true_iff. by apply digit_is_plain.
Qed.

Lemma digit_groups_digits (b : bool) (s : string) :
  Py.all_chars Py.is_digit s = true -> s <> "" \/ b = true ->
  Py.digit_groups b s = Some s.
Proof.
  revert b. induction s as [|c s IH]; intros b Hs Hb; cbn.
  - by destruct Hb as [?| ->].
  - cbn in Hs. apply andb_prop in Hs as [Hc Hs]. rewrite Hc.
    rewrite IH by auto. done.
Qed.

Lemma digit_not_int_space (c : ascii) :
  Py.is_digit c = true -> Py.int_space c = false.
Proof.
  intros H. destruct c as [[] [] [] [] [] [] [] []];
    vm_compute in H; try discriminate H; vm_compute; done.
Qed.

Lemma int_strip_digits (s : string) :
  Py.all_chars Py.is_digit s = true -> Py.strip_chars Py.int_space s = s.
Proof.
  intros H. apply strip_chars_none. revert H. apply all_chars_impl.
  intros c Hc. apply negb_true_iff. by apply digit_not_int_space.
Qed.

(** [int] on a non-empty run of digits reads them in base 10. *)
Lemma int_digits_eval (s : string) :
  Py.all_chars Py.is_digit s = true -> s <> "" ->
  Py.int s = (fun u => Z.of_nat (Nat.of_uint u)) <$> NilZero.uint_of_string s.
Proof.
  intros Hs Hne. unfold Py.int. rewrite int_strip_digits by done.
  destruct s as [|c t]; [done|].
  pose proof Hs as Hc. cbn in Hc. apply andb_prop in Hc as [Hc _].
  destruct (digit_is_plain c Hc) as (-> & -> & _).
  unfold Py.int_body. rewrite digit_groups_digits by auto.
  cbn [mbind option_bind].
  by destruct (NilZero.uint_of_string (String c t)).
Qed.

Lemma int_digits (s : string) :
  Py.all_chars Py.is_digit s = true -> s <> "" -> is_Some (Py.int s).
Proof.
  intros Hs Hne. rewrite int_digits_eval by done.
  destruct (uint_of_string_digits s Hs) as [u Hu].
  destruct s as [|c t]; [done|]. cbn in *. rewrite Hu. eauto.
Qed.

(** [int(str(n)) == n] *)
Lemma int_str (n : nat) : Py.int (Py.str n) = Some (Z.of_nat n).
Proof.
  rewrite int_digits_eval;
    [|apply str_digits|apply truthy_true, str_truthy].
  unfold Py.str. rewrite NilZero.usu by apply to_uint_nonnil. cbn.
  by rewrite Unsigned.of_to.
Qed.

Lemma strip_prefix_cons (a b : ascii) (p s : string) :
  strip_prefix (String a p) (String b s)
  = if Ascii.eqb a b then strip_prefix p s else None.
Proof. done. Qed.

Lemma strip_prefix_spec (p s r : string) :
  strip_prefix p s = Some r -> s = p +:+ r.
Proof.
  revert s. induction p as [|a p IH]; intros s; cbn; [congruence|].
  destruct s as [|b s]; [done|].
  destruct (Ascii.eqb_spec a b) as [->|]; [|done].
  intros H. by rewrite (IH s H).
Qed.

Lemma strip_prefix_app (p s x r : string) :
  strip_prefix p s = Some r -> strip_prefix p (s +:+ x) = Some (r +:+ x).
Proof.
  revert s. induction p as [|a p IH]; intros s; cbn; [congruence|].
  destruct s as [|b s]; [done|]. cbn.
  destruct (Ascii.eqb a b); [|done]. apply IH.
Qed.

(** A bracket met where the prefix expects another character ends the
    comparison. *)
Lemma strip_prefix_bracket (p s x : string) :
  Py.all_chars (fun c => negb (Ascii.eqb c "[")) p = true ->
  strip_prefix p s = None -> strip_prefix p (s +:+ String "[" x) = None.
Proof.
  revert s. induction p as [|a p IH]; intros s; cbn; [done|].
  intros [Ha%negb_true_iff Hp]%andb_prop.
  destruct s as [|b s]; cbn.
  - by rewrite Ha.
  - destruct (Ascii.eqb a b); [|done]. by apply IH.
Qed.

Lemma take_digits_spec (s : string) :
  s = fst (take_digits s) +:+ snd (take_digits s)
  /\ Py.all_chars Py.is_digit (fst (take_digits s)) = true
  /\ head_not_digit (snd (take_digits s)) = true.
Proof.
  induction s as [|c s (IH1 & IH2 & IH3)]; cbn; [done|].
  destruct (Py.is_digit c) eqn:Hc.
  - destruct (take_digits s) as [d r]. cbn in *. rewrite Hc. by rewrite <- IH1.
  - cbn. by rewrite Hc.
Qed.

Lemma take_digits_app (s x : string) :
  head_not_digit x = true ->
  take_digits (s +:+ x) = (fst (take_digits s), snd (take_digits s) +:+ x).
Proof.
  intros Hx. induction s as [|c s IH]; cbn.
  - destruct x as [|c x]; [done|]. cbn in *.
    apply negb_true_iff in Hx. by rewrite Hx.
  - destruct (Py.is_digit c); [|done]. rewrite IH.
    by destruct (take_digits s).
Qed.

Lemma take_digits_digits (d x : string) :
  Py.all_chars Py.is_digit d = true -> head_not_digit x = true ->
  take_digits (d +:+ x) = (d, x).
Proof.
  intros Hd Hx. induction d as [|c d IH]; cbn.
  - destruct x as [|c x]; [done|]. cbn in *.
    apply negb_true_iff in Hx. by rewrite Hx.
  - cbn in Hd. apply andb_prop in Hd as [-> Hd]. by rewrite IH.
Qed.

(** What a match of the marker pattern is. *)
Lemma match_marker_spec (s d rest : string) :
  match_marker s = Some (d, rest) ->
  s = "[block:" +:+ d +:+ "]" +:+ rest
  /\ Py.all_chars Py.is_digit d = true /\ d <> "".
Proof.
  unfold match_marker.
  destruct (strip_prefix "[block:" s) as [r|] eqn:Hp; [|done].
  apply strip_prefix_spec in Hp as ->.
  destruct (take_digits_spec r) as (Hr & Hd & _).
  destruct (take_digits r) as [[|c d'] [|e r']]; try done.
  destruct (Ascii.eqb_spec e "]") as [->|]; [|done].
  intros [= <- <-]. cbn in Hr. by rewrite Hr.
Qed.

Lemma match_marker_intro (d rest : string) :
  Py.all_chars Py.is_digit d = true -> d <> "" ->
  match_marker ("[block:" +:+ d +:+ "]" +:+ rest) = Some (d, rest).
Proof.
  intros Hd Hne. unfold match_marker. cbn.
  rewrite take_digits_digits by done. by destruct d.
Qed.

Lemma match_marker_shorter (s d rest : string) :
  match_marker s = Some (d, rest) -> String.length rest < String.length s.
Proof.
  intros (-> & _)%match_marker_spec. cbn. rewrite string_length_app. cbn. lia.
Qed.

(** A match is not affected by a marker that follows the scanned text. *)
Lemma match_marker_app (a x : string) :
  a <> "" ->
  match_marker (a +:+ String "[" x)
  = (fun m => (m.1, m.2 +:+ String "[" x)) <$> match_marker a.
Proof.
  destruct a as [|c a]; [done|]. intros _. unfold match_marker.
  rewrite string_app_cons, !strip_prefix_cons.
  destruct (Ascii.eqb "[" c); [|done].
  destruct (strip_prefix "block:" a) as [r|] eqn:Hp.
  - rewrite (strip_prefix_app _ _ _ _ Hp). rewrite take_digits_app by done.
    destruct (take_digits r) as [[|c' d] [|e r']]; cbn; try done.
    by destruct (Ascii.eqb e "]").
  - by rewrite strip_prefix_bracket.
Qed.

(** The result of the scan does not depend on the fuel, once there is
    enough of it. *)
Lemma split_markers_fuel (f1 f2 : nat) (s : string) :
  String.length s < f1 -> String.length s < f2 ->
  split_markers f1 s = split_markers f2 s.
Proof.
  revert f2 s. induction f1 as [|f1 IH]; intros f2 s H1 H2; [lia|].
  destruct f2 as [|f2]; [lia|]. cbn [split_markers].
  destruct (match_marker s) as [[d rest]|] eqn:Hm.
  - pose proof (match_marker_shorter _ _ _ Hm). do 2 f_equal. apply IH; lia.
  - destruct s as [|c s]; [done|]. cbn in H1, H2. f_equal. apply IH; lia.
Qed.

Lemma re_split_match (s d rest : string) :
  match_marker s = Some (d, rest) ->
  re_split s = "" :: ("[block:" +:+ d +:+ "]") :: re_split rest.
Proof.
  intros Hm. unfold re_split at 1. cbn [split_markers]. rewrite Hm.
  do 2 f_equal. pose proof (match_marker_shorter _ _ _ Hm).
  unfold re_split. apply split_markers_fuel; lia.
Qed.

Lemma re_split_char (c : ascii) (s : string) :
  match_marker (String c s) = None ->
  re_split (String c s) = prepend_char c (re_split s).
Proof.
  intros Hm. unfold re_split at 1. cbn [split_markers String.length].
  by rewrite Hm.
Qed.

Lemma re_split_nonempty (s : string) : re_split s <> [].
Proof.
  destruct (match_marker s) as [[d rest]|] eqn:Hm.
  - by rewrite (re_split_match _ _ _ Hm).
  - destruct s as [|c s]; [done|]. rewrite re_split_char by done.
    by destruct (re_split s).
Qed.

Lemma prepend_char_app (c : ascii) (l k : list string) :
  l <> [] -> prepend_char c (l ++ k) = prepend_char c l ++ k.
Proof. by destruct l. Qed.

Lemma marker_unfold (i : nat) (x : string) :
  marker i +:+ x = String "[" ("block:" +:+ Py.str i +:+ "]" +:+ x).
Proof.
  unfold marker, format.
  cbn [before_field after_field default_block_link_format].
  by rewrite !string_app_assoc.
Qed.

Lemma match_marker_marker (i : nat) (x : string) :
  match_marker (marker i +:+ x) = Some (Py.str i, x).
Proof.
  rewrite marker_unfold.
  apply (match_marker_intro (Py.str i) x);
    [apply str_digits|apply truthy_true, str_truthy].
Qed.

(** The scan splits at every marker and is otherwise local to the text on
    each side of it. *)
Lemma re_split_marker (a : string) (i : nat) (b : string) :
  re_split (a +:+ marker i +:+ b) = re_split a ++ marker i :: re_split b.
Proof.
  remember (S (String.length a)) as n eqn:Hn.
  assert (String.length a < n) as Hlt by lia. clear Hn.
  revert a Hlt. induction n as [|n IH]; intros a Hlt; [lia|].
  destruct a as [|c a].
  - cbn [String.append].
    by rewrite (re_split_match _ _ _ (match_marker_marker i b)).
  - pose proof (match_marker_app (String c a)
                  ("block:" +:+ Py.str i +:+ "]" +:+ b)) as Hm.
    rewrite <- marker_unfold in Hm. specialize (Hm ltac:(done)).
    destruct (match_marker (String c a)) as [[d rest]|] eqn:Ha;
      cbn [fmap option_fmap option_map fst snd] in Hm.
    + rewrite (re_split_match _ _ _ Hm), (re_split_match _ _ _ Ha).
      rewrite IH; [done|].
      apply match_marker_shorter in Ha. lia.
    + rewrite string_app_cons in *.
      rewrite (re_split_char _ _ Hm), (re_split_char _ _ Ha).
      rewrite IH by (cbn in Hlt; lia).
      apply prepend_char_app, re_split_nonempty.
Qed.

Lemma marker_free_cons (c : ascii) (s : string) :
  marker_free (String c s) = true ->
  match_marker (String c s) = None /\ marker_free s = true.
Proof. cbn [marker_free]. by destruct (match_marker (String c s)). Qed.

Lemma re_split_marker_free (s : string) : marker_free s = true -> re_split s = [s].
Proof.
  induction s as [|c s IH]; [done|].
  intros [Hm Hs]%marker_free_cons. by rewrite re_split_char, IH.
Qed.

(** Read without the limit of [int], every part gives a span and every
    text is decoded; [limited_parse] tells when the decoder raises. *)
Lemma block_link_total (part : string) : is_Some (block_link part).
Proof.
  unfold block_link.
  destruct (match_marker part) as [[d rest]|] eqn:Hm; [|eauto].
  apply match_marker_spec in Hm as (_ & Hd & Hne).
  destruct (int_digits d Hd Hne) as [z ->]. cbn. eauto.
Qed.

Lemma block_link_marker (i : nat) :
  block_link (marker i) = Some (LinkSpan (marker i) (Z.of_nat i)).
Proof.
  pose proof (match_marker_marker i "") as H. rewrite string_app_nil_r in H.
  unfold block_link. by rewrite H, int_str.
Qed.

Lemma block_link_plain (part : string) :
  match_marker part = None -> block_link part = Some (PlainSpan part).
Proof. unfold block_link. by intros ->. Qed.

Lemma parse_total (text : string) : is_Some (parse_block_links text).
Proof.
  apply mapM_is_Some, Forall_true. intros part. apply block_link_total.
Qed.

Lemma parse_marker (a : string) (i : nat) (b : string) (sa sb : list Span) :
  parse_block_links a = Some sa -> parse_block_links b = Some sb ->
  parse_block_links (a +:+ marker i +:+ b)
  = Some (sa ++ LinkSpan (marker i) (Z.of_nat i) :: sb).
Proof.
  unfold parse_block_links. intros Ha%mapM_Some Hb%mapM_Some.
  rewrite re_split_marker. apply mapM_Some.
  apply Forall2_app; [done|]. constructor; [apply block_link_marker|done].
Qed.

Lemma parse_marker_free (s : string) :
  marker_free s = true -> parse_block_links s = Some [PlainSpan s].
Proof.
  intros Hs. unfold parse_block_links. rewrite re_split_marker_free by done.
  cbn. rewrite block_link_plain; [done|].
  destruct s; [done|]. by apply marker_free_cons in Hs as [-> _].
Qed.



(** ** Facts on the codec under the limit of [int] *)

Lemma marker_free_no_match (p : string) :
  marker_free p = true -> match_marker p = None.
Proof. destruct p; [done|]. by intros [? _]%marker_free_cons. Qed.

(** Where [int] returns under its limit, it returns what it reads without
    the limit. *)
Lemma limited_int_Some (s : string) (z : Z) :
  Limited.int s = Some z -> Py.int s = Some z.
Proof.
  assert (forall t y, Limited.int_body t = Some y -> Py.int_body t = Some y)
    as Hbody.
  { intros t y. unfold Limited.int_body, Py.int_body.
    destruct (Py.digit_groups false t) as [d|]; [|done]. cbn [mbind option_bind].
    by destruct (Limited.int_max_str_digits <? String.length d). }
  unfold Limited.int, Py.int.
  destruct (Py.strip_chars Py.int_space s) as [|c t]; [done|].
  destruct (Ascii.eqb c "+"); [apply Hbody|].
  destruct (Ascii.eqb c "-"); [|apply Hbody].
  destruct (Limited.int_body t) as [y|] eqn:E; [|done].
  by rewrite (Hbody t y E).
Qed.

(** On a run of digits the limit is the only difference. *)
Lemma limited_int_digits (d : string) :
  Py.all_chars Py.is_digit d = true -> d <> "" ->
  Limited.int d
  = if String.length d <=? Limited.int_max_str_digits then Py.int d else None.
Proof.
  intros Hd Hne. unfold Limited.int, Py.int.
  rewrite int_strip_digits by done. destruct d as [|c t]; [done|].
  pose proof Hd as Hc. cbn [Py.all_chars] in Hc. apply andb_prop in Hc as [Hc _].
  destruct (digit_is_plain c Hc) as (-> & -> & _).
  unfold Limited.int_body, Py.int_body. rewrite digit_groups_digits by auto.
  cbn [mbind option_bind].
  destruct (Nat.leb_spec (String.length (String c t)) Limited.int_max_str_digits),
    (Nat.ltb_spec Limited.int_max_str_digits (String.length (String c t)));
    first [lia|done].
Qed.

Lemma limited_int_str (n : nat) :
  String.length (Py.str n) <= Limited.int_max_str_digits ->
  Limited.int (Py.str n) = Some (Z.of_nat n).
Proof.
  intros Hn. rewrite limited_int_digits;
    [|apply str_digits|apply truthy_true, str_truthy].
  apply Nat.leb_le in Hn. rewrite Hn. apply int_str.
Qed.

Lemma limited_block_link (part : string) :
  Limited.block_link part
  = if part_within_limit part then block_link part else None.
Proof.
  unfold Limited.block_link, block_link, part_within_limit.
  destruct (match_marker part) as [[d rest]|] eqn:Hm; [|done].
  apply match_marker_spec in Hm as (_ & Hd & Hne).
  rewrite limited_int_digits by done.
  by destruct (String.length d <=? Limited.int_max_str_digits).
Qed.

Lemma limited_mapM (parts : list string) :
  mapM Limited.block_link parts
  = if forallb part_within_limit parts then mapM block_link parts else None.
Proof.
  induction parts as [|p parts IH]; [done|].
  cbn [mapM forallb]. rewrite IH, limited_block_link.
  destruct (part_within_limit p); [|done]. cbn [andb].
  destruct (forallb part_within_limit parts); [done|].
  by destruct (block_link p).
Qed.

(** The decoder under the limit: it raises when a marker of the text is
    beyond the limit, and otherwise returns what is read without the
    limit. *)
Lemma limited_parse (text : string) :
  Limited.parse_block_links text
  = if markers_within_limit text then parse_block_links text else None.
Proof. apply limited_mapM. Qed.

Lemma limited_parse_Some (text : string) :
  is_Some (Limited.parse_block_links text) <-> markers_within_limit text = true.
Proof.
  rewrite limited_parse. destruct (markers_within_limit text).
  - split; [done|]. intros _. apply parse_total.
  - split; [by intros [? ?]|done].
Qed.

Lemma part_within_limit_marker (i : nat) :
  part_within_limit (marker i)
  = (String.length (Py.str i) <=? Limited.int_max_str_digits).
Proof.
  pose proof (match_marker_marker i "") as H. rewrite string_app_nil_r in H.
  unfold part_within_limit. by rewrite H.
Qed.

Lemma within_limit_marker (a : string) (i : nat) (b : string) :
  markers_within_limit (a +:+ marker i +:+ b)
  = markers_within_limit a
    && ((String.length (Py.str i) <=? Limited.int_max_str_digits)
        && markers_within_limit b).
Proof.
  unfold markers_within_limit. rewrite re_split_marker, forallb_app.
  cbn [forallb]. by rewrite part_within_limit_marker.
Qed.

Lemma within_limit_marker_free (s : string) :
  marker_free s = true -> markers_within_limit s = true.
Proof.
  intros Hs. unfold markers_within_limit. rewrite re_split_marker_free by done.
  cbn [forallb]. unfold part_within_limit.
  by rewrite marker_free_no_match.
Qed.

Lemma limited_parse_marker (a : string) (i : nat) (b : string)
    (sa sb : list Span) :
  String.length (Py.str i) <= Limited.int_max_str_digits ->
  Limited.parse_block_links a = Some sa ->
  Limited.parse_block_links b = Some sb ->
  Limited.parse_block_links (a +:+ marker i +:+ b)
  = Some (sa ++ LinkSpan (marker i) (Z.of_nat i) :: sb).
Proof.
  intros Hi%Nat.leb_le. rewrite !limited_parse, within_limit_marker, Hi.
  destruct (markers_within_limit a); [|done].
  destruct (markers_within_limit b); [|done]. apply parse_marker.
Qed.

Lemma limited_parse_long_marker (a : string) (i : nat) (b : string) :
  Limited.int_max_str_digits < String.length (Py.str i) ->
  Limited.parse_block_links (a +:+ marker i +:+ b) = None.
Proof.
  intros Hi. rewrite limited_parse, within_limit_marker.
  destruct (Nat.leb_spec (String.length (Py.str i)) Limited.int_max_str_digits);
    [lia|].
  by rewrite andb_false_r.
Qed.

Lemma limited_parse_marker_free (s : string) :
  marker_free s = true -> Limited.parse_block_links s = Some [PlainSpan s].
Proof.
  intros Hs. rewrite limited_parse, within_limit_marker_free by done.
  by apply parse_marker_free.
Qed.

(** ** Facts on decoded contents *)







Lemma marker_free_unfold (c : ascii) (s : string) :
  marker_free (String c s)
  = match match_marker (String c s) with
    | Some _ => false
    | None => marker_free s
    end.
Proof. done. Qed.



Lemma join_cons_cons (x y : string) (l : list string) :
  Py.join " " (x :: y :: l) = x +:+ " " +:+ Py.join " " (y :: l).
Proof. done. Qed.






Section DecodedFacts.

Context (mapping : gmap string string).

Abbreviation run_step := (step mapping default_block_link_format).
Abbreviation run := (process mapping default_block_link_format).




End DecodedFacts.



(** ** Facts on the resource link *)






Lemma resource_block_idx_int (n : Z) :
  n <> 0%Z -> resource_block_idx (VInt n) = Some n.
Proof.
  intros Hn. unfold resource_block_idx. cbn.
  by destruct (Z.eqb_spec n 0).
Qed.


Lemma resource_block_idx_malformed (s : string) :
  s <> "" ->
  Py.int (Py.strip_chars (in_chars "]") (Py.strip_chars (in_chars "[block:") s))
  = None ->
  resource_block_idx (VStr s) = Some 0%Z.
Proof.
  intros Hs Hi. unfold resource_block_idx. cbn [value_truthy].
  apply truthy_true in Hs as ->. by rewrite Hi.
Qed.

(** * Properties of the specification *)

(** ** Empty input and the default entry *)

(** C5: compiling the empty sequence returns one default entry
    (section_1 / subsection_1, empty markers, empty text) and no resources,
    for every mapping and format.  More generally, with [s] the state after
    the last flush: when no entry was appended by flushing, the content is
    exactly one entry with the final section and subsection fields and an
    empty text; otherwise the post-pass appends nothing. *)
Theorem empty_input_default_entry :
  (forall mapping fmt,
     compile_parsed_content [] mapping fmt
     = {| out_content :=
            [{| section := "section_1"; section_block := "";
                subsection := "subsection_1"; subsection_block := "";
                text := "" |}];
          out_resources := [] |})
  /\ (forall blocks mapping fmt,
        let s := flush_current_text (process mapping fmt 0 blocks initial_state) in
        (content_sections s = [] ->
         out_content (compile_parsed_content blocks mapping fmt)
         = [{| section := current_section s;
               section_block := current_section_block s;
               subsection := current_subsection s;
               subsection_block := current_subsection_block s;
               text := "" |}])
        /\ (content_sections s <> [] ->
            out_content (compile_parsed_content blocks mapping fmt)
            = content_sections s)).
Proof.
  split; [done|]. intros blocks mapping fmt s.
  unfold compile_parsed_content, finish. fold s. cbn.
  destruct (content_sections s); split; done.
Qed.

Lemma empty_input_default_entry_witness :
  content_sections
    (flush_current_text
       (process intro_mapping default_block_link_format 0
          [mk_block "Section header" "Intro"] initial_state)) = []
  /\ out_content
       (compile_parsed_content [mk_block "Section header" "Intro"]
          intro_mapping default_block_link_format)
     = [{| section := "introduction"; section_block := "[block:0]";
           subsection := "subsection_1"; subsection_block := "";
           text := "" |}].
Proof.
  split; [reflexivity|].
  apply (proj1 (proj2 empty_input_default_entry
                  [mk_block "Section header" "Intro"] intro_mapping
                  default_block_link_format)).
  reflexivity.
Defined.

(** ** Section headers *)

(** C3, as stated, fails when the header maps to the empty name: the guard
    [if mapped and ...] sends it to the subsection branch. *)
Lemma section_header_empty_name_counterexample :
  empty_name_mapping !! block_text_of (mk_block "Section header" "Intro") = Some ""
  /\ Py.lower "" <> "none"
  /\ current_section
       (step empty_name_mapping default_block_link_format initial_state 0
          (mk_block "Section header" "Intro"))
     <> Py.lower ""
  /\ current_subsection
       (step empty_name_mapping default_block_link_format initial_state 0
          (mk_block "Section header" "Intro"))
     = "Intro".
Proof. repeat split; vm_compute; congruence. Qed.

(** C3 (amended): a section header whose stripped text maps to a non-empty
    name that does not lower-case to "none" flushes the pending buffer
    (one entry with the previous section fields when the buffer is not
    empty), then sets the section to the lower-cased name, the section
    marker to the marker of the block, the subsection fields to their
    defaults; the buffer is empty afterwards and the resources are
    untouched.  The header-reset scenario yields the single expected entry. *)
Theorem section_header_sets_section :
  (forall mapping fmt s idx b mapped,
     is_header b = true ->
     mapping !! block_text_of b = Some mapped ->
     mapped <> "" -> Py.lower mapped <> "none" ->
     let s' := step mapping fmt s idx b in
     content_sections s'
     = content_sections s
       ++ match current_text_buffer s with
          | [] => []
          | _ :: _ => [current_entry s (Py.join " " (current_text_buffer s))]
          end
     /\ current_text_buffer s' = []
     /\ current_section s' = Py.lower mapped
     /\ current_section_block s' = format fmt idx
     /\ current_subsection s' = "subsection_1"
     /\ current_subsection_block s' = ""
     /\ resources s' = resources s)
  /\ compile_parsed_content header_then_text intro_mapping
       default_block_link_format
     = {| out_content :=
            [{| section := "introduction"; section_block := marker 0;
                subsection := "subsection_1"; subsection_block := "";
                text := marker 1 +:+ "hello" +:+ marker 1 |}];
          out_resources := [] |}.
Proof.
  split; [|reflexivity].
  intros mapping fmt s idx b mapped Hh Hm Hne Hs s'. subst s'.
  rewrite (step_header_section mapping fmt s idx b mapped) by done. cbn.
  rewrite flush_content, flush_buffer.
  by destruct (flush_other s) as (-> & _).
Qed.

Lemma section_header_sets_section_witness :
  current_section
    (step intro_mapping default_block_link_format initial_state 0
       (mk_block "Section header" "Intro")) = "introduction".
Proof.
  apply (proj1 section_header_sets_section intro_mapping
           default_block_link_format initial_state 0
           (mk_block "Section header" "Intro") "introduction");
    [reflexivity|reflexivity|discriminate|vm_compute; discriminate].
Defined.



(** ** Captions *)

(** C1, as stated, fails when the last resource is already described: the
    caption reaches neither the resource nor the text buffer, whereas a
    generic text block with the same text is appended to the buffer. *)
Lemma caption_after_described_resource_counterexample :
  (exists r,
     last_resource
       (process ∅ default_block_link_format 0 picture_then_caption initial_state)
     = Some 0
     /\ resources
          (process ∅ default_block_link_format 0 picture_then_caption
             initial_state) !! 0 = Some r
     /\ description r <> "")
  /\ compile_parsed_content (picture_then_caption ++ [mk_block "Caption" "more"])
       ∅ default_block_link_format
     <> compile_parsed_content (picture_then_caption ++ [mk_block "Text" "more"])
          ∅ default_block_link_format.
Proof.
  split.
  - eexists. split; [reflexivity|]. split; [reflexivity|]. vm_compute. congruence.
  - intros H. apply (f_equal (fun o => text <$> out_content o)) in H.
    vm_compute in H. congruence.
Qed.

(** C1 (amended): a caption processed while there is no pending resource is
    handled exactly as a generic text block with the same text (its
    non-empty stripped text, wrapped in the marker of the block, is appended
    to the buffer) and changes no resource; when no resource block precedes
    the caption, the compiled output is equal to the output with the caption
    retyped as a generic text block.  A caption processed while the last
    resource already has a non-empty description changes no resource, and
    its text does not reach the buffer: the state is unchanged. *)
Theorem caption_without_resource_is_text
    (mapping : gmap string string) (fmt : LinkFormat) :
  (forall s idx b ty,
     is_caption b = true -> generic_type ty = true -> last_resource s = None ->
     let s' := step mapping fmt s idx b in
     s' = step mapping fmt s idx (as_type ty b)
     /\ resources s' = resources s
     /\ current_text_buffer s'
        = current_text_buffer s
          ++ if Py.truthy (block_text_of b)
             then [format fmt idx +:+ block_text_of b +:+ format fmt idx]
             else [])
  /\ (forall pre b post ty,
        is_caption b = true -> generic_type ty = true ->
        forallb (fun x => negb (is_resource x)) pre = true ->
        compile_parsed_content (pre ++ b :: post) mapping fmt
        = compile_parsed_content (pre ++ as_type ty b :: post) mapping fmt)
  /\ (forall s idx b k r,
        is_caption b = true ->
        last_resource s = Some k -> resources s !! k = Some r ->
        description r <> "" ->
        step mapping fmt s idx b = s).
Proof.
  assert (Hstep : forall s idx b ty,
             is_caption b = true -> generic_type ty = true ->
             last_resource s = None ->
             step mapping fmt s idx b = step mapping fmt s idx (as_type ty b)).
  { intros s idx b ty Hc Hg Hl.
    rewrite step_caption by done. rewrite Hl.
    by rewrite (step_generic mapping fmt s idx (as_type ty b)). }
  split; [|split].
  - intros s idx b ty Hc Hg Hl s'. subst s'. split; [by apply Hstep|].
    rewrite step_caption by done. rewrite Hl.
    destruct (Py.truthy (block_text_of b)); cbn; [done|].
    by rewrite app_nil_r.
  - intros pre b post ty Hc Hg Hpre. unfold compile_parsed_content.
    rewrite !process_app. cbn [process]. rewrite (Hstep _ _ _ ty); [done..|].
    by rewrite process_keeps_last_resource.
  - intros s idx b k r Hc Hl Hk Hd. rewrite step_caption by done.
    rewrite Hl, Hk. by apply truthy_true in Hd as ->.
Qed.

Lemma caption_without_resource_is_text_witness :
  compile_parsed_content
    ([mk_block "Section header" "Intro"] ++ mk_block "Caption" " Fig 1 " :: [])
    intro_mapping default_block_link_format
  = compile_parsed_content
      ([mk_block "Section header" "Intro"]
         ++ as_type "Text" (mk_block "Caption" " Fig 1 ") :: [])
      intro_mapping default_block_link_format.
Proof.
  apply (proj1 (proj2 (caption_without_resource_is_text intro_mapping
                         default_block_link_format)));
    reflexivity.
Defined.

(** ** Stripping *)

(** C10, as stated, fails for a whitespace-only caption that follows an
    undescribed resource: it sets the description of that resource to the
    doubled marker and its [description_block] to the index of the caption. *)
Lemma blank_caption_counterexample :
  Py.all_chars Py.is_space "  " = true
  /\ out_resources
       (compile_parsed_content picture_then_blank_caption ∅
          default_block_link_format)
     = [{| reference := "[image:1]"; content := "imgdata";
           content_type := "image"; description := "[block:1][block:1]";
           content_block := 0; description_block := Some 1 |}]
  /\ step ∅ default_block_link_format
       (process ∅ default_block_link_format 0 [mk_block "Picture" "imgdata"]
          initial_state)
       1 (mk_block "Caption" "  ")
     <> process ∅ default_block_link_format 0 [mk_block "Picture" "imgdata"]
          initial_state.
Proof.
  split; [reflexivity|]. split; [reflexivity|].
  intros H. apply (f_equal (fun s => description <$> resources s)) in H.
  vm_compute in H. congruence.
Qed.

(** C10 (amended): the loop body reads a block only through its type and
    its stripped text, an absent text being the empty string; so a block can
    be replaced by one carrying the stripped text, and a block whose text is
    only whitespace behaves as one with an empty or an absent text.  Such a
    block leaves the state unchanged when its type is a generic one, and when
    it is a caption, unless the last resource has no description yet: a
    caption met before any resource, or while the last resource is already
    described. *)
Theorem text_is_stripped_before_use
    (mapping : gmap string string) (fmt : LinkFormat) :
  (forall s idx b1 b2,
     default "" (b_type b1) = default "" (b_type b2) ->
     Py.strip (default "" (b_text b1)) = Py.strip (default "" (b_text b2)) ->
     step mapping fmt s idx b1 = step mapping fmt s idx b2)
  /\ (forall s idx b,
        step mapping fmt s idx b
        = step mapping fmt s idx
            {| b_type := b_type b;
               b_text := Some (Py.strip (default "" (b_text b))) |})
  /\ (forall s idx b,
        Py.all_chars Py.is_space (default "" (b_text b)) = true ->
        step mapping fmt s idx b
        = step mapping fmt s idx {| b_type := b_type b; b_text := Some "" |}
        /\ step mapping fmt s idx b
           = step mapping fmt s idx {| b_type := b_type b; b_text := None |})
  /\ (forall s idx b,
        Py.all_chars Py.is_space (default "" (b_text b)) = true ->
        generic_type (default "" (b_type b)) = true
        \/ (is_caption b = true /\ last_resource s = None)
        \/ (is_caption b = true
            /\ exists k r, last_resource s = Some k /\ resources s !! k = Some r
                           /\ description r <> "") ->
        step mapping fmt s idx b = s).
Proof.
  split; [|split; [|split]].
  - intros s idx b1 b2 Hty Htx. by apply step_ext.
  - intros s idx b. apply step_ext; [done|].
    unfold block_text_of. symmetry. apply strip_idemp.
  - intros s idx b Hsp. split; (apply step_ext; [done|]);
      unfold block_text_of; by rewrite strip_whitespace_only.
  - intros s idx b Hsp Hty.
    assert (block_text_of b = "") as Ht
      by (unfold block_text_of; by rewrite strip_whitespace_only).
    destruct Hty as [Hg|[[Hc Hl]|(Hc & k & r & Hl & Hk & Hd)]].
    + rewrite step_generic by done. by rewrite Ht.
    + rewrite step_caption by done. by rewrite Hl, Ht.
    + rewrite step_caption by done. rewrite Hl, Hk.
      by apply truthy_true in Hd as ->.
Qed.

Lemma text_is_stripped_before_use_witness :
  Py.all_chars Py.is_space (default "" (b_text (mk_block "Caption" "  "))) = true
  /\ step intro_mapping default_block_link_format
       (process intro_mapping default_block_link_format 0 picture_then_caption
          initial_state)
       2 (mk_block "Caption" "  ")
     = process intro_mapping default_block_link_format 0 picture_then_caption
         initial_state.
Proof.
  split; [reflexivity|].
  apply (proj2 (proj2 (proj2 (text_is_stripped_before_use intro_mapping
                                default_block_link_format))));
    [reflexivity|].
  right. right. split; [reflexivity|].
  eexists 0, _. split; [reflexivity|]. split; [reflexivity|].
  vm_compute. discriminate.
Defined.

(** ** Resource numbering *)

(** C7: in the compiled output the references of the image resources are
    [image:1] .. [image:k] in list order, k being the number of Picture
    blocks of the input, and those of the table resources are [table:1] ..
    [table:k'], k' being the number of Table blocks; the two counters start
    at 1 in the initial state of every run. *)
Theorem resource_numbering
    (blocks : list Block) (mapping : gmap string string) (fmt : LinkFormat) :
  let rs := out_resources (compile_parsed_content blocks mapping fmt) in
  reference <$> of_type "image" rs
  = image_ref <$> seq 1 (length (List.filter is_picture blocks))
  /\ reference <$> of_type "table" rs
     = table_ref <$> seq 1 (length (List.filter is_table blocks))
  /\ length (of_type "image" rs) = length (List.filter is_picture blocks)
  /\ length (of_type "table" rs) = length (List.filter is_table blocks)
  /\ image_counter initial_state = 1 /\ table_counter initial_state = 1.
Proof.
  intros rs. subst rs. unfold compile_parsed_content, finish.
  cbn [out_resources].
  destruct (flush_other (process mapping fmt 0 blocks initial_state))
    as (-> & _).
  assert (counters_ok initial_state) as H0 by done.
  apply (process_counters_ok mapping fmt 0 blocks) in H0.
  destruct H0 as (Hi & Ht & Hri & Hrt).
  destruct (process_counters mapping fmt 0 blocks initial_state) as [Ci Ct].
  cbn in Ci, Ct. rewrite Ci in Hi. rewrite Ct in Ht.
  injection Hi as Hi. injection Ht as Ht.
  rewrite Hri, Hrt, <- Hi, <- Ht. done.
Qed.


(** ** Caption binding *)

(** C2: a resource block followed, before any other resource or caption, by
    a caption gets as description the stripped caption text wrapped in the
    caption's marker and as [description_block] the caption's index,
    whatever comes after that caption; a resource block followed by no
    caption before the next resource block (or the end of the input) keeps
    an empty description and no [description_block].  So the description is
    set at most once, by the first caption after the resource and before the
    next resource.  The Picture/Caption scenario yields the single expected
    resource and a single entry holding the image link only. *)
Theorem caption_binds_first_undescribed_resource
    (mapping : gmap string string) (fmt : LinkFormat) :
  (forall pre r mid c post,
     is_resource r = true ->
     forallb (fun b => negb (is_resource b) && negb (is_caption b)) mid = true ->
     is_caption c = true ->
     let k := length (List.filter is_resource pre) in
     let j := S (length pre + length mid) in
     exists res,
       out_resources
         (compile_parsed_content (pre ++ r :: mid ++ c :: post) mapping fmt) !! k
       = Some res
       /\ content res = block_text_of r
       /\ content_block res = length pre
       /\ description res = format fmt j +:+ block_text_of c +:+ format fmt j
       /\ description_block res = Some j)
  /\ (forall pre r mid post,
        is_resource r = true ->
        forallb (fun b => negb (is_resource b) && negb (is_caption b)) mid = true ->
        (post = [] \/ exists r' post', post = r' :: post' /\ is_resource r' = true) ->
        let k := length (List.filter is_resource pre) in
        exists res,
          out_resources
            (compile_parsed_content (pre ++ r :: mid ++ post) mapping fmt) !! k
          = Some res
          /\ content res = block_text_of r
          /\ content_block res = length pre
          /\ description res = ""
          /\ description_block res = None)
  /\ compile_parsed_content picture_then_caption ∅ default_block_link_format
     = {| out_content :=
            [{| section := "section_1"; section_block := "";
                subsection := "subsection_1"; subsection_block := "";
                text := marker 0 +:+ "[image:1]" +:+ marker 0 |}];
          out_resources :=
            [{| reference := "[image:1]"; content := "imgdata";
                content_type := "image";
                description := marker 1 +:+ "Fig 1" +:+ marker 1;
                content_block := 0; description_block := Some 1 |}] |}.
Proof.
  split; [|split; [|reflexivity]].
  - intros pre r mid c post Hr Hmid Hc k j.
    unfold compile_parsed_content, finish. cbn [out_resources].
    rewrite process_app. cbn [process]. rewrite process_app. cbn [process].
    rewrite Nat.add_0_l.
    destruct (process_to_resource mapping fmt pre r Hr)
      as (Hlen & Hlast & Halias & ref & ty & Hk).
    cbv zeta in Hlen, Hlast, Halias, Hk. fold k in Hlen, Hlast, Hk.
    set (s2 := step mapping fmt (process mapping fmt 0 pre initial_state)
                 (length pre) r) in *.
    destruct (process_keeps_resources mapping fmt (S (length pre)) mid s2 Hmid)
      as [Hres3 Hlast3].
    set (s3 := process mapping fmt (S (length pre)) mid s2) in *.
    replace (S (length pre) + length mid) with j by (subst j; lia).
    destruct (flush_other (process mapping fmt (S j) post
                             (step mapping fmt s3 j c))) as (-> & _).
    eexists. split.
    + apply process_described_stable.
      * rewrite step_caption by done. rewrite Hlast3, Hlast, Hres3, Hk. cbn.
        rewrite list_lookup_alter_eq, Hres3, Hk. reflexivity.
      * cbn. apply truthy_true, wrapped_truthy.
    + done.
  - intros pre r mid post Hr Hmid Hpost k.
    unfold compile_parsed_content, finish. cbn [out_resources].
    rewrite process_app. cbn [process]. rewrite process_app.
    rewrite Nat.add_0_l.
    destruct (process_to_resource mapping fmt pre r Hr)
      as (Hlen & Hlast & Halias & ref & ty & Hk).
    cbv zeta in Hlen, Hlast, Halias, Hk. fold k in Hlen, Hlast, Hk.
    set (s2 := step mapping fmt (process mapping fmt 0 pre initial_state)
                 (length pre) r) in *.
    destruct (process_keeps_resources mapping fmt (S (length pre)) mid s2 Hmid)
      as [Hres3 Hlast3].
    set (s3 := process mapping fmt (S (length pre)) mid s2) in *.
    destruct Hpost as [->|(r' & post' & -> & Hr')].
    + cbn [process]. destruct (flush_other s3) as (-> & _).
      eexists. split; [rewrite Hres3; exact Hk|done].
    + cbn [process].
      destruct (flush_other
                  (process mapping fmt (S (S (length pre) + length mid)) post'
                     (step mapping fmt s3 (S (length pre) + length mid) r')))
        as (-> & _).
      eexists. split.
      { rewrite process_older_stable.
        - rewrite step_resource by done. cbn. rewrite Hres3.
          rewrite lookup_app_l by lia. exact Hk.
        - apply step_alias. by rewrite Hlast3, Hres3.
        - rewrite step_resource by done. cbn.
          rewrite length_app, Hres3, Hlen. cbn. lia. }
      done.
Qed.

Lemma caption_binds_first_undescribed_resource_witness :
  exists res,
    out_resources
      (compile_parsed_content
         ([mk_block "Text" "a"]
            ++ mk_block "Table" "| t |"
            :: [mk_block "Section header" "Intro"]
            ++ mk_block "Caption" " Tab 1 " :: [mk_block "Caption" "late"])
         intro_mapping default_block_link_format) !! 0
    = Some res
    /\ content res = "| t |"
    /\ content_block res = 1
    /\ description res = "[block:3]Tab 1[block:3]"
    /\ description_block res = Some 3.
Proof.
  apply (proj1 (caption_binds_first_undescribed_resource intro_mapping
                  default_block_link_format)
           [mk_block "Text" "a"] (mk_block "Table" "| t |")
           [mk_block "Section header" "Intro"] (mk_block "Caption" " Tab 1 ")
           [mk_block "Caption" "late"]);
    reflexivity.
Defined.

(** ** The block-link codec *)

(** C6: on a text that holds a marker of 4301 digits the decoder raises,
    where the claim says that decoding never raises: [int] refuses the
    digits, and the decoder calls it outside any [try] block.  The page
    builder reads the index of a marker in three places, each inside a [try]
    block: on the same digits a title only loses its link.  Such a text
    reaches the decoder as the text of a block, and the page of the document
    is then not built at all. *)
Theorem long_marker_raises :
  String.length long_digits = 4301
  /\ match_marker long_marker = Some (long_digits, "")
  /\ Limited.int long_digits = None
  /\ Limited.parse_block_links long_marker = None
  /\ link_index long_marker = None
  /\ text
     <$> out_content
           (compile_parsed_content [mk_block "Text" long_marker] ∅
              default_block_link_format)
     = [marker 0 +:+ long_marker +:+ marker 0]
  /\ build_nested_compiled_structure_html
       (compile_parsed_content [mk_block "Text" long_marker] ∅
          default_block_link_format)
     = None.
Proof. repeat split; vm_compute; reflexivity. Qed.

(** X17: every string a block adds to the buffer, and every description it
    sets, is the marker of that block, a text, and the same marker again.
    Decoding splits at each marker occurrence and tags it with the index the
    marker was made from, as long as markers have at most 4300 digits: a
    string [a + marker(i) + b] decodes to the spans of [a], a link span for
    [i], and the spans of [b]; so a wrapped span decodes to a link for [i]
    on each side of the spans of its text.  A string without markers decodes
    to a single plain span.  Decoding returns a result exactly for the
    strings whose markers all have at most 4300 digits. *)
Theorem marker_round_trip :
  (forall mapping fmt s idx b item,
     item ∈ current_text_buffer (step mapping fmt s idx b) ->
     item ∈ current_text_buffer s
     \/ exists t, item = format fmt idx +:+ t +:+ format fmt idx)
  /\ (forall mapping fmt s idx b r,
        r ∈ resources (step mapping fmt s idx b) ->
        r ∈ resources s \/ description r = ""
        \/ exists t, description r = format fmt idx +:+ t +:+ format fmt idx)
  /\ (forall a i b sa sb,
        String.length (Py.str i) <= Limited.int_max_str_digits ->
        Limited.parse_block_links a = Some sa ->
        Limited.parse_block_links b = Some sb ->
        Limited.parse_block_links (a +:+ marker i +:+ b)
        = Some (sa ++ LinkSpan (marker i) (Z.of_nat i) :: sb))
  /\ (forall i t st,
        String.length (Py.str i) <= Limited.int_max_str_digits ->
        Limited.parse_block_links t = Some st ->
        Limited.parse_block_links (marker i +:+ t +:+ marker i)
        = Some (PlainSpan "" :: LinkSpan (marker i) (Z.of_nat i)
                  :: st ++ [LinkSpan (marker i) (Z.of_nat i); PlainSpan ""]))
  /\ (forall s,
        marker_free s = true -> Limited.parse_block_links s = Some [PlainSpan s])
  /\ (forall s,
        is_Some (Limited.parse_block_links s) <-> markers_within_limit s = true)
  /\ (forall a i b,
        markers_within_limit (a +:+ marker i +:+ b)
        = markers_within_limit a
          && ((String.length (Py.str i) <=? Limited.int_max_str_digits)
              && markers_within_limit b)).
Proof.
  split; [exact step_buffer_wrapped|].
  split; [exact step_description_wrapped|].
  split; [exact limited_parse_marker|].
  split; [|split; [exact limited_parse_marker_free|]].
  - intros i t st Hi Ht.
    assert (Limited.parse_block_links (t +:+ marker i)
            = Some (st ++ [LinkSpan (marker i) (Z.of_nat i); PlainSpan ""]))
      as Hr.
    { pose proof (limited_parse_marker t i "" st [PlainSpan ""] Hi Ht eq_refl)
        as H.
      by rewrite string_app_nil_r in H. }
    exact (limited_parse_marker "" i (t +:+ marker i) [PlainSpan ""] _ Hi
             eq_refl Hr).
  - split; [exact limited_parse_Some|exact within_limit_marker].
Qed.

Lemma marker_round_trip_witness :
  Limited.parse_block_links ("see " +:+ marker 12 +:+ "Fig 1")
  = Some ([PlainSpan "see "] ++ LinkSpan (marker 12) 12 :: [PlainSpan "Fig 1"]).
Proof.
  apply (proj1 (proj2 (proj2 marker_round_trip)) "see " 12 "Fig 1");
    [vm_compute; lia|reflexivity|reflexivity].
Defined.

(** ** Ordering *)




(** ** The link of a resource *)

(** C9: the first block of a document being a Picture, the compiled resource
    carries the raw integer 0 as [content_block]; for that value the guard
    [if content_block:] is false and no index is extracted at all. *)
Theorem resource_link_zero_index :
  content_block
  <$> out_resources
        (compile_parsed_content [mk_block "Picture" "imgdata"] ∅
           default_block_link_format)
  = [0]
  /\ resource_block_idx (VInt 0) = None
  /\ resource_block_idx (VInt 1) = Some 1%Z
  /\ resource_block_idx (VStr "[block:0]") = Some 0%Z.
Proof. repeat split; reflexivity. Qed.

(** * Further properties of the compiler *)

Section Provenance.

Context (mapping : gmap string string) (fmt : LinkFormat).

Abbreviation one_step := (step mapping fmt).
Abbreviation all_steps := (process mapping fmt).

(** ** Resources and their blocks *)

Lemma fmap_describe {B : Type} (f : Resource -> B) (desc : string) (i k : nat)
    (rs : list Resource) :
  (forall r, f (describe desc i r) = f r) ->
  f <$> alter (describe desc i) k rs = f <$> rs.
Proof.
  intros Hf. rewrite (list_fmap_alter f (describe desc i) id).
  - by apply list_alter_id.
  - apply Forall_true. intros r. apply Hf.
Qed.

(** A block that is not a resource leaves every field but the description
    of every resource as it is. *)
Lemma step_keeps_field {B : Type} (f : Resource -> B) (s : State) (idx : nat)
    (b : Block) :
  (forall desc i r, f (describe desc i r) = f r) ->
  is_resource b = false ->
  f <$> resources (one_step s idx b) = f <$> resources s.
Proof.
  intros Hf Hr. destruct (is_caption b) eqn:Hc;
    [|by rewrite step_keeps_resources].
  rewrite step_caption by done.
  destruct (last_resource s) as [k|].
  - destruct (resources s !! k) as [r|]; [|done].
    destruct (Py.truthy (description r)); [done|]. cbn. by apply fmap_describe.
  - by destruct (Py.truthy _).
Qed.

Lemma process_origins (idx : nat) (l : list Block) (s : State) :
  resource_origin <$> resources (all_steps idx l s)
  = (resource_origin <$> resources s) ++ (block_origin <$> resource_blocks idx l).
Proof.
  revert idx s. induction l as [|b l IH]; intros idx s; cbn [process resource_blocks].
  { by rewrite app_nil_r. }
  rewrite IH. destruct (is_resource b) eqn:Hr.
  - rewrite step_resource by done. cbn [add_resource resources].
    rewrite fmap_app, <- app_assoc, fmap_cons. by f_equal.
  - by rewrite step_keeps_field.
Qed.

Lemma resource_blocks_spec (idx : nat) (l : list Block) (i : nat) (b : Block) :
  (i, b) ∈ resource_blocks idx l
  <-> idx <= i /\ l !! (i - idx) = Some b /\ is_resource b = true.
Proof.
  revert idx. induction l as [|a l IH]; intros idx; cbn [resource_blocks].
  { rewrite elem_of_nil. split; [done|]. by intros (_ & ? & _). }
  assert (Hrest : (i, b) ∈ resource_blocks (S idx) l
                  <-> S idx <= i /\ (a :: l) !! (i - idx) = Some b
                      /\ is_resource b = true).
  { rewrite IH. split.
    - intros (Hle & Hl & Hr). split; [done|]. split; [|done].
      replace (i - idx) with (S (i - S idx)) by lia. done.
    - intros (Hle & Hl & Hr). split; [done|]. split; [|done].
      replace (i - idx) with (S (i - S idx)) in Hl by lia. done. }
  destruct (is_resource a) eqn:Ha.
  - rewrite elem_of_cons, Hrest. split.
    + intros [[= -> ->]|(Hle & Hl & Hr)].
      * rewrite Nat.sub_diag. done.
      * split; [lia|done].
    + intros (Hle & Hl & Hr). destruct (decide (i = idx)) as [->|Hne].
      * left. rewrite Nat.sub_diag in Hl. by injection Hl as ->.
      * right. split; [lia|done].
  - rewrite Hrest. split.
    + intros (Hle & Hl & Hr). split; [lia|done].
    + intros (Hle & Hl & Hr). destruct (decide (i = idx)) as [->|Hne].
      * rewrite Nat.sub_diag in Hl. injection Hl as ->. congruence.
      * split; [lia|done].
Qed.

Lemma resource_blocks_sorted (idx : nat) (l : list Block) :
  StronglySorted lt ((resource_blocks idx l).*1)
  /\ Forall (fun i => idx <= i) ((resource_blocks idx l).*1).
Proof.
  revert idx. induction l as [|a l IH]; intros idx; cbn [resource_blocks].
  { split; constructor. }
  destruct (IH (S idx)) as [H1 H2].
  assert (Forall (fun i => idx <= i) (resource_blocks (S idx) l).*1) as H3.
  { eapply Forall_impl; [exact H2|]. cbn. lia. }
  destruct (is_resource a); [|done]. cbn. split.
  - constructor; [done|]. eapply Forall_impl; [exact H2|]. cbn. lia.
  - by constructor.
Qed.

End Provenance.

(** X1: the resources of the output are, in order, one per Picture or Table
    block: each carries the position of its block as [content_block], the
    stripped text of the block as [content] and "image" or "table" as
    [content_type]; the positions are strictly increasing. *)
Theorem resources_follow_blocks
    (blocks : list Block) (mapping : gmap string string) (fmt : LinkFormat) :
  resource_origin <$> out_resources (compile_parsed_content blocks mapping fmt)
  = block_origin <$> resource_blocks 0 blocks
  /\ (forall i b, (i, b) ∈ resource_blocks 0 blocks
                  <-> blocks !! i = Some b /\ is_resource b = true)
  /\ StronglySorted lt
       (content_block
        <$> out_resources (compile_parsed_content blocks mapping fmt)).
Proof.
  assert (resource_origin
          <$> out_resources (compile_parsed_content blocks mapping fmt)
          = block_origin <$> resource_blocks 0 blocks) as E.
  { unfold compile_parsed_content, finish. cbn [out_resources].
    destruct (flush_other (process mapping fmt 0 blocks initial_state))
      as (-> & _).
    by rewrite process_origins. }
  split; [exact E|]. split.
  - intros i b. rewrite resource_blocks_spec, Nat.sub_0_r. split.
    + by intros (_ & ? & ?).
    + intros [? ?]. split; [lia|done].
  - apply (f_equal (fmap (fun o : nat * string * string => o.1.1))) in E.
    rewrite <- !list_fmap_compose in E.
    change ((fun o : nat * string * string => o.1.1) ∘ resource_origin)
      with content_block in E.
    rewrite E.
    change ((fun o : nat * string * string => o.1.1) ∘ block_origin)
      with (@fst nat Block).
    apply resource_blocks_sorted.
Qed.

(** ** Descriptions and their captions *)

Section Descriptions.

Context (mapping : gmap string string) (fmt : LinkFormat).

Lemma described_by_caption_app (pre l : list Block) (r : Resource) :
  described_by_caption fmt pre r -> described_by_caption fmt (pre ++ l) r.
Proof.
  intros [?|(j & c & ? & ? & Hj & ? & ?)]; [by left|right].
  exists j, c. repeat split; try done. by apply lookup_app_l_Some.
Qed.

(** Each block keeps the resources within the blocks read so far and
    described by captions among them. *)
Lemma step_described_by_caption (pre : list Block) (s : State) (b : Block) :
  Forall (fun r => content_block r < length pre
                   /\ described_by_caption fmt pre r) (resources s) ->
  Forall (fun r => content_block r < length (pre ++ [b])
                   /\ described_by_caption fmt (pre ++ [b]) r)
    (resources (step mapping fmt s (length pre) b)).
Proof.
  intros Hall.
  assert (Hold : Forall (fun r => content_block r < length (pre ++ [b])
                           /\ described_by_caption fmt (pre ++ [b]) r)
                   (resources s)).
  { eapply Forall_impl; [exact Hall|]. cbn. intros r [Hlt Hd].
    rewrite length_app. cbn. split; [lia|]. by apply described_by_caption_app. }
  destruct (block_cases b) as [(Hh&Hr&Hc)|[(_&Hr&_)|[(_&_&Hc)|(_&Hr&Hc&_)]]].
  - by rewrite step_keeps_resources.
  - rewrite step_resource by done. cbn [add_resource resources].
    apply Forall_app. split; [done|]. repeat constructor.
    cbn. rewrite length_app. cbn. lia.
  - rewrite step_caption by done.
    destruct (last_resource s) as [k|]; [|by destruct (Py.truthy _)].
    destruct (resources s !! k) as [r|] eqn:Hk; [|done].
    destruct (Py.truthy (description r)); [done|].
    cbn [set_description resources]. apply Forall_alter; [done|].
    intros r' Hr' [Hlt Hd]. cbn. split; [done|]. right.
    exists (length pre), b. repeat split; try done.
    + rewrite Forall_forall in Hall.
      apply (Hall r'). apply list_elem_of_lookup. eauto.
    + by apply list_lookup_middle.
  - by rewrite step_keeps_resources.
Qed.

Lemma process_described_by_caption (l pre : list Block) (s : State) :
  Forall (fun r => content_block r < length pre
                   /\ described_by_caption fmt pre r) (resources s) ->
  Forall (fun r => content_block r < length (pre ++ l)
                   /\ described_by_caption fmt (pre ++ l) r)
    (resources (process mapping fmt (length pre) l s)).
Proof.
  revert pre s. induction l as [|b l IH]; intros pre s H.
  { by rewrite app_nil_r. }
  cbn [process].
  replace (pre ++ b :: l) with ((pre ++ [b]) ++ l) by (by rewrite <- app_assoc).
  replace (S (length pre)) with (length (pre ++ [b]))
    by (rewrite length_app; cbn; lia).
  by apply IH, step_described_by_caption.
Qed.

End Descriptions.

(** X2: every resource of the output either has an empty description and
    no [description_block], or has as [description_block] the position of a
    Caption block that comes after its own block, and as description the
    stripped text of that caption wrapped in the marker of that position. *)
Theorem descriptions_come_from_captions
    (blocks : list Block) (mapping : gmap string string) (fmt : LinkFormat) :
  Forall (described_by_caption fmt blocks)
    (out_resources (compile_parsed_content blocks mapping fmt)).
Proof.
  unfold compile_parsed_content, finish. cbn [out_resources].
  destruct (flush_other (process mapping fmt 0 blocks initial_state))
    as (-> & _).
  pose proof (process_described_by_caption mapping fmt blocks [] initial_state)
    as H.
  eapply Forall_impl; [apply H; constructor|]. cbn. by intros r [_ ?].
Qed.

(** ** References *)

Lemma str_inj (n m : nat) : Py.str n = Py.str m -> n = m.
Proof.
  intros H. pose proof (int_str n) as Hn. rewrite H, int_str in Hn.
  injection Hn as Hn. lia.
Qed.

Lemma string_app_inv_r (a b c : string) : a +:+ c = b +:+ c -> a = b.
Proof.
  intros H. assert (String.length a = String.length b) as Hlen.
  { apply (f_equal String.length) in H. rewrite !string_length_app in H. lia. }
  revert b H Hlen. induction a as [|x a IH]; intros [|y b] H Hlen; cbn in *;
    try done.
  injection H as -> H. f_equal. apply IH; [done|lia].
Qed.

Lemma image_ref_inj (n m : nat) : image_ref n = image_ref m -> n = m.
Proof.
  unfold image_ref. intros H%String.app_inj. by apply string_app_inv_r, str_inj in H.
Qed.

Lemma table_ref_inj (n m : nat) : table_ref n = table_ref m -> n = m.
Proof.
  unfold table_ref. intros H%String.app_inj. by apply string_app_inv_r, str_inj in H.
Qed.

Lemma image_ref_not_table (n m : nat) : image_ref n <> table_ref m.
Proof. unfold image_ref, table_ref. cbn [String.append]. discriminate. Qed.

Section References.

Context (mapping : gmap string string) (fmt : LinkFormat).

Lemma step_references_distinct (s : State) (idx : nat) (b : Block) :
  NoDup (reference <$> resources s) ->
  Forall (issued s) (reference <$> resources s) ->
  NoDup (reference <$> resources (step mapping fmt s idx b))
  /\ Forall (issued (step mapping fmt s idx b))
       (reference <$> resources (step mapping fmt s idx b)).
Proof.
  intros Hnd Hiss. destruct (is_resource b) eqn:Hr.
  - rewrite step_resource by done. cbn [add_resource resources].
    rewrite fmap_app. cbn [fmap list_fmap reference].
    fold (image_ref (image_counter s)). fold (table_ref (table_counter s)).
    split.
    + apply NoDup_app. split; [done|]. split; [|apply NoDup_singleton].
      intros ref Href ->%list_elem_of_singleton.
      rewrite Forall_forall in Hiss. specialize (Hiss _ Href).
      destruct (String.eqb (block_type_of b) "Picture");
        destruct Hiss as [(n & Hn & E)|(n & Hn & E)].
      * apply image_ref_inj in E. lia.
      * by apply image_ref_not_table in E.
      * symmetry in E. by apply image_ref_not_table in E.
      * apply table_ref_inj in E. lia.
    + apply Forall_app. split.
      * eapply Forall_impl; [exact Hiss|]. unfold issued. cbn.
        intros ref [(n & Hn & E)|(n & Hn & E)]; [left|right]; exists n;
          (split; [|done]); destruct (String.eqb _ _); lia.
      * apply Forall_singleton. unfold issued.
        cbn [add_resource image_counter table_counter].
        destruct (String.eqb (block_type_of b) "Picture"); [left|right];
          eexists; (split; [|reflexivity]); lia.
  - rewrite (step_keeps_field mapping fmt reference) by done.
    split; [done|]. unfold issued.
    by destruct (step_keeps_counters mapping fmt s idx b Hr) as [-> ->].
Qed.

Lemma process_references_distinct (idx : nat) (l : list Block) (s : State) :
  NoDup (reference <$> resources s) ->
  Forall (issued s) (reference <$> resources s) ->
  NoDup (reference <$> resources (process mapping fmt idx l s)).
Proof.
  revert idx s. induction l as [|b l IH]; intros idx s Hnd Hiss; [done|].
  cbn [process].
  destruct (step_references_distinct s idx b Hnd Hiss) as [Hnd' Hiss'].
  by apply IH.
Qed.

End References.

(** X3: no two resources of the output carry the same reference. *)
Theorem references_distinct
    (blocks : list Block) (mapping : gmap string string) (fmt : LinkFormat) :
  NoDup (reference <$> out_resources (compile_parsed_content blocks mapping fmt)).
Proof.
  unfold compile_parsed_content, finish. cbn [out_resources].
  destruct (flush_other (process mapping fmt 0 blocks initial_state))
    as (-> & _).
  apply process_references_distinct; constructor.
Qed.

(** ** Content entries *)

Lemma join_truthy (x : string) (l : list string) :
  x <> "" -> Py.join " " (x :: l) <> "".
Proof.
  intros Hx. destruct l as [|y l]; [done|]. rewrite join_cons_cons.
  apply truthy_true, truthy_app_l. by apply truthy_true.
Qed.

Section Entries.

Context (mapping : gmap string string) (fmt : LinkFormat).

Lemma step_buffer_truthy (s : State) (idx : nat) (b : Block) :
  Forall (fun item => item <> "") (current_text_buffer s) ->
  Forall (fun item => item <> "") (current_text_buffer (step mapping fmt s idx b)).
Proof.
  intros H. apply Forall_forall. intros item Hitem.
  apply step_buffer_wrapped in Hitem as [Hitem|[t ->]].
  - rewrite Forall_forall in H. by apply H.
  - apply truthy_true, wrapped_truthy.
Qed.

Lemma flush_texts_truthy (s : State) :
  Forall (fun item => item <> "") (current_text_buffer s) ->
  Forall (fun e => text e <> "") (content_sections s) ->
  Forall (fun e => text e <> "") (content_sections (flush_current_text s)).
Proof.
  intros Hb Hc. rewrite flush_content. apply Forall_app. split; [done|].
  destruct (current_text_buffer s) as [|x l]; [constructor|].
  apply Forall_singleton. cbn. apply join_truthy. by inversion Hb.
Qed.

Lemma step_texts_truthy (s : State) (idx : nat) (b : Block) :
  Forall (fun item => item <> "") (current_text_buffer s) ->
  Forall (fun e => text e <> "") (content_sections s) ->
  Forall (fun e => text e <> "") (content_sections (step mapping fmt s idx b)).
Proof.
  intros Hb Hc. destruct (is_header b) eqn:Hh.
  - destruct (step_header mapping fmt s idx b Hh) as [[name ->]| ->]; cbn;
      by apply flush_texts_truthy.
  - by rewrite step_keeps_content.
Qed.

Lemma process_texts_truthy (idx : nat) (l : list Block) (s : State) :
  Forall (fun item => item <> "") (current_text_buffer s) ->
  Forall (fun e => text e <> "") (content_sections s) ->
  Forall (fun item => item <> "")
    (current_text_buffer (process mapping fmt idx l s))
  /\ Forall (fun e => text e <> "")
       (content_sections (process mapping fmt idx l s)).
Proof.
  revert idx s. induction l as [|b l IH]; intros idx s Hb Hc; [done|].
  cbn [process]. apply IH; [by apply step_buffer_truthy|by apply step_texts_truthy].
Qed.

Lemma contributors_cons (idx : nat) (seen : bool) (b : Block)
    (rest : list Block) :
  contributors idx seen (b :: rest)
  = if is_header b then contributors (S idx) seen rest
    else if is_resource b then idx :: contributors (S idx) true rest
    else if is_caption b && seen then contributors (S idx) seen rest
    else if Py.truthy (block_text_of b) then idx :: contributors (S idx) seen rest
    else contributors (S idx) seen rest.
Proof. done. Qed.

(** Nothing has been put in an entry or in the buffer exactly when no block
    read so far contributes. *)
Lemma step_nothing (s : State) (idx : nat) (b : Block) (rest : list Block) :
  content_sections (step mapping fmt s idx b) = []
  /\ current_text_buffer (step mapping fmt s idx b) = []
  /\ contributors (S idx) (seen_resource (step mapping fmt s idx b)) rest = []
  <-> content_sections s = [] /\ current_text_buffer s = []
      /\ contributors idx (seen_resource s) (b :: rest) = [].
Proof.
  rewrite contributors_cons.
  destruct (block_cases b) as [(Hh&Hr&Hc)|[(Hh&Hr&Hc)|[(Hh&Hr&Hc)|(Hh&Hr&Hc&Hg)]]];
    rewrite ?Hh, ?Hr, ?Hc; cbn [andb].
  - assert (content_sections (step mapping fmt s idx b)
            = content_sections (flush_current_text s)
            /\ current_text_buffer (step mapping fmt s idx b) = []
            /\ seen_resource (step mapping fmt s idx b) = seen_resource s)
      as (-> & -> & ->).
    { unfold seen_resource.
      destruct (step_header mapping fmt s idx b Hh) as [[name ->]| ->]; cbn;
        rewrite flush_buffer;
        by destruct (flush_other s) as (_ & _ & _ & _ & _ & _ & _ & ->). }
    rewrite flush_content.
    destruct (current_text_buffer s), (content_sections s); cbn;
      intuition discriminate.
  - rewrite step_resource by done. cbn [add_resource current_text_buffer].
    split; [|by intros (_ & _ & ?)]. intros (_ & H & _).
    by apply app_eq_nil in H as [_ ?].
  - rewrite step_caption by done. unfold seen_resource.
    destruct (last_resource s) as [k|] eqn:Hl.
    + destruct (resources s !! k) as [r|]; [|by rewrite Hl].
      destruct (Py.truthy (description r)); [by rewrite Hl|].
      cbn [set_description content_sections current_text_buffer last_resource].
      by rewrite Hl.
    + destruct (Py.truthy (block_text_of b)); [|by rewrite Hl].
      cbn [buffer_append content_sections current_text_buffer last_resource].
      split; [|by intros (_ & _ & ?)]. intros (_ & H & _).
      by apply app_eq_nil in H as [_ ?].
  - rewrite step_generic by done.
    destruct (Py.truthy (block_text_of b)); [|done].
    cbn [buffer_append content_sections current_text_buffer]. unfold seen_resource.
    cbn [buffer_append last_resource].
    split; [|by intros (_ & _ & ?)]. intros (_ & H & _).
    by apply app_eq_nil in H as [_ ?].
Qed.

Lemma process_nothing (idx : nat) (l : list Block) (s : State) :
  content_sections (process mapping fmt idx l s) = []
  /\ current_text_buffer (process mapping fmt idx l s) = []
  <-> content_sections s = [] /\ current_text_buffer s = []
      /\ contributors idx (seen_resource s) l = [].
Proof.
  revert idx s. induction l as [|b l IH]; intros idx s.
  { cbn. intuition. }
  cbn [process]. rewrite IH. apply step_nothing.
Qed.

(** Only header blocks, one entry each at most, make the content grow. *)
Lemma process_content_length (idx : nat) (l : list Block) (s : State) :
  length (content_sections (process mapping fmt idx l s))
  <= length (content_sections s) + length (List.filter is_header l).
Proof.
  revert idx s. induction l as [|b l IH]; intros idx s; cbn; [lia|].
  etrans; [apply IH|]. destruct (is_header b) eqn:Hh.
  - assert (content_sections (step mapping fmt s idx b)
            = content_sections (flush_current_text s)) as ->.
    { by destruct (step_header mapping fmt s idx b Hh) as [[name ->]| ->]. }
    rewrite flush_content, length_app.
    destruct (current_text_buffer s); cbn; lia.
  - rewrite step_keeps_content by done. lia.
Qed.

End Entries.

(** X4: the content of the output is never empty.  When no block
    contributes to the text (no resource block, no caption before the first
    resource and no generic block with a non-empty stripped text), it is a
    single entry with an empty text; otherwise every entry has a non-empty
    text. *)
Theorem content_texts
    (blocks : list Block) (mapping : gmap string string) (fmt : LinkFormat) :
  let out := out_content (compile_parsed_content blocks mapping fmt) in
  out <> []
  /\ (contributors 0 false blocks = [] -> exists e, out = [e] /\ text e = "")
  /\ (contributors 0 false blocks <> [] -> Forall (fun e => text e <> "") out).
Proof.
  intros out. subst out. unfold compile_parsed_content, finish. cbn [out_content].
  set (s := process mapping fmt 0 blocks initial_state).
  destruct (process_texts_truthy mapping fmt 0 blocks initial_state)
    as [Hb Hc]; [constructor..|]. fold s in Hb, Hc.
  pose proof (process_nothing mapping fmt 0 blocks initial_state) as Hn.
  fold s in Hn. cbn in Hn.
  pose proof (flush_texts_truthy s Hb Hc) as Hf.
  pose proof (flush_content s) as Hfc.
  split; [by destruct (content_sections (flush_current_text s))|]. split.
  - intros Hnone. destruct Hn as [_ Hn]. destruct Hn as [Hcs Hbuf]; [done|].
    rewrite Hfc, Hcs, Hbuf. cbn. eauto.
  - intros Hsome.
    destruct (content_sections (flush_current_text s)) as [|e l]; [|done].
    exfalso. apply Hsome. apply Hn. symmetry in Hfc.
    apply app_eq_nil in Hfc as [Hcs E]. split; [done|].
    by destruct (current_text_buffer s).
Qed.

Lemma content_texts_witness :
  contributors 0 false mixed_blocks <> []
  /\ Forall (fun e => text e <> "")
       (out_content
          (compile_parsed_content mixed_blocks intro_mapping
             default_block_link_format)).
Proof.
  assert (contributors 0 false mixed_blocks <> []) as H by (vm_compute; congruence).
  split; [exact H|].
  exact (proj2 (proj2 (content_texts mixed_blocks intro_mapping
                         default_block_link_format)) H).
Defined.

(** X5: the content of the output has at least one entry and at most one
    more than there are Section header blocks. *)
Theorem content_length_bound
    (blocks : list Block) (mapping : gmap string string) (fmt : LinkFormat) :
  1 <= length (out_content (compile_parsed_content blocks mapping fmt))
    <= S (length (List.filter is_header blocks)).
Proof.
  unfold compile_parsed_content, finish. cbn [out_content].
  set (s := process mapping fmt 0 blocks initial_state).
  pose proof (process_content_length mapping fmt 0 blocks initial_state) as Hlen.
  fold s in Hlen. cbn in Hlen.
  pose proof (flush_content s) as Hfc.
  destruct (content_sections (flush_current_text s)) as [|e l].
  - cbn. lia.
  - apply (f_equal length) in Hfc. rewrite length_app in Hfc. cbn in Hfc.
    destruct (current_text_buffer s); cbn in *; lia.
Qed.

(** ** Entries and their headers *)

Section Headers.

Context (mapping : gmap string string) (fmt : LinkFormat).

Lemma entry_from_headers_app (pre l : list Block) (e : ContentEntry) :
  entry_from_headers mapping fmt pre e ->
  entry_from_headers mapping fmt (pre ++ l) e.
Proof.
  intros (src & sub & Hsec & Hsub & Hlt). exists src, sub.
  split; [|split; [|done]].
  - destruct src as [i|]; [|done]. destruct Hsec as (b & m & Hb & ?).
    exists b, m. split; [by apply lookup_app_l_Some|done].
  - destruct sub as [j|]; [|done]. destruct Hsub as (b & Hb & ?).
    exists b. split; [by apply lookup_app_l_Some|done].
Qed.

Lemma entry_from_headers_text (pre : list Block) (s : State) (t t' : string) :
  entry_from_headers mapping fmt pre (current_entry s t) ->
  entry_from_headers mapping fmt pre (current_entry s t').
Proof.
  intros (src & sub & Hsec & Hsub & Hlt). exists src, sub.
  split; [|split; [|done]].
  - by destruct src.
  - by destruct sub.
Qed.

Lemma flush_current_entry (s : State) (t : string) :
  current_entry (flush_current_text s) t = current_entry s t.
Proof.
  unfold current_entry.
  by destruct (flush_other s) as (_ & -> & -> & -> & -> & _).
Qed.

Lemma step_keeps_current_entry (s : State) (idx : nat) (b : Block) (t : string) :
  is_header b = false ->
  current_entry (step mapping fmt s idx b) t = current_entry s t.
Proof.
  intros Hh.
  destruct (block_cases b) as [(?&_)|[(_&Hr&_)|[(_&_&Hc)|(_&_&_&Hg)]]];
    try congruence.
  - by rewrite step_resource.
  - rewrite step_caption by done.
    destruct (last_resource s) as [k|].
    + destruct (resources s !! k) as [r|]; [|done].
      by destruct (Py.truthy (description r)).
    + by destruct (Py.truthy _).
  - rewrite step_generic by done. by destruct (Py.truthy _).
Qed.

Lemma flush_entries (pre : list Block) (s : State) :
  entry_from_headers mapping fmt pre (current_entry s "") ->
  Forall (entry_from_headers mapping fmt pre) (content_sections s) ->
  Forall (entry_from_headers mapping fmt pre)
    (content_sections (flush_current_text s)).
Proof.
  intros Hcur Hall. rewrite flush_content. apply Forall_app. split; [done|].
  destruct (current_text_buffer s); [constructor|].
  apply Forall_singleton. by eapply entry_from_headers_text.
Qed.

(** The current fields and the fields of every entry come from header
    blocks read so far. *)
Lemma step_entries (pre : list Block) (s : State) (b : Block) :
  entry_from_headers mapping fmt pre (current_entry s "") ->
  Forall (entry_from_headers mapping fmt pre) (content_sections s) ->
  entry_from_headers mapping fmt (pre ++ [b])
    (current_entry (step mapping fmt s (length pre) b) "")
  /\ Forall (entry_from_headers mapping fmt (pre ++ [b]))
       (content_sections (step mapping fmt s (length pre) b)).
Proof.
  intros Hcur Hall.
  assert (Hall' : Forall (entry_from_headers mapping fmt (pre ++ [b]))
                    (content_sections (flush_current_text s))).
  { eapply Forall_impl; [by apply flush_entries|].
    intros e. apply entry_from_headers_app. }
  assert (Hmid : (pre ++ [b]) !! length pre = Some b)
    by by apply list_lookup_middle.
  destruct (is_header b) eqn:Hh.
  - assert (Hsub : step mapping fmt s (length pre) b
                   = set_subsection (flush_current_text s) (block_text_of b)
                       (format fmt (length pre)) ->
            entry_from_headers mapping fmt (pre ++ [b])
              (current_entry (step mapping fmt s (length pre) b) "")
            /\ Forall (entry_from_headers mapping fmt (pre ++ [b]))
                 (content_sections (step mapping fmt s (length pre) b))).
    { intros ->. split; [|done].
      destruct Hcur as (src & sub & Hsec & _ & _).
      exists src, (Some (length pre)). split; [|split].
      - unfold section_from in *.
        cbn [set_subsection current_entry section section_block
               current_section current_section_block] in *.
        destruct (flush_other s) as (_ & -> & -> & _).
        destruct src as [i|]; [|done]. destruct Hsec as (b' & m & Hb' & ?).
        exists b', m. split; [by apply lookup_app_l_Some|done].
      - by exists b.
      - intros i j -> [= <-]. destruct Hsec as (b' & m & Hb' & _).
        by apply lookup_lt_Some in Hb'. }
    destruct (mapping !! block_text_of b) as [mapped|] eqn:Hm.
    + destruct (decide (mapped = "")) as [->|Hne].
      { apply Hsub, step_header_subsection; eauto. }
      destruct (decide (Py.lower mapped = "none")) as [Hs|Hs].
      { apply Hsub, step_header_subsection; eauto. }
      rewrite (step_header_section mapping fmt s (length pre) b mapped) by done.
      split; [|done]. exists (Some (length pre)), None.
      split; [|split; [done|done]]. by exists b, mapped.
    + apply Hsub, step_header_subsection; auto.
  - rewrite step_keeps_current_entry, step_keeps_content by done. split.
    + by apply entry_from_headers_app.
    + eapply Forall_impl; [exact Hall|]. intros e. apply entry_from_headers_app.
Qed.

Lemma process_entries (l pre : list Block) (s : State) :
  entry_from_headers mapping fmt pre (current_entry s "") ->
  Forall (entry_from_headers mapping fmt pre) (content_sections s) ->
  entry_from_headers mapping fmt (pre ++ l)
    (current_entry (process mapping fmt (length pre) l s) "")
  /\ Forall (entry_from_headers mapping fmt (pre ++ l))
       (content_sections (process mapping fmt (length pre) l s)).
Proof.
  revert pre s. induction l as [|b l IH]; intros pre s Hcur Hall.
  { by rewrite app_nil_r. }
  cbn [process].
  replace (pre ++ b :: l) with ((pre ++ [b]) ++ l) by (by rewrite <- app_assoc).
  replace (S (length pre)) with (length (pre ++ [b]))
    by (rewrite length_app; cbn; lia).
  destruct (step_entries pre s b Hcur Hall) as [Hcur' Hall']. by apply IH.
Qed.

End Headers.

(** X6: in every entry of the output, the section is "section_1" with an
    empty marker, or the lower-cased mapping of the stripped text of a
    Section header block, with the marker of that block; the subsection is
    "subsection_1" with an empty marker, or the stripped text of a Section
    header block, with the marker of that block; and when both come from
    header blocks, the subsection header comes after the section header. *)
Theorem entries_come_from_headers
    (blocks : list Block) (mapping : gmap string string) (fmt : LinkFormat) :
  Forall (entry_from_headers mapping fmt blocks)
    (out_content (compile_parsed_content blocks mapping fmt)).
Proof.
  unfold compile_parsed_content, finish. cbn [out_content].
  destruct (process_entries mapping fmt blocks [] initial_state) as [Hcur Hall].
  { by exists None, None. }
  { constructor. }
  cbn [length app] in Hcur, Hall.
  set (s := process mapping fmt 0 blocks initial_state) in *.
  pose proof (flush_entries mapping fmt blocks s Hcur Hall) as Hf.
  destruct (content_sections (flush_current_text s)); [|done].
  apply Forall_singleton. rewrite flush_current_entry. exact Hcur.
Qed.

(** * Further properties of the codec *)

(** Induction along the scan of [re_split]. *)
Lemma re_split_ind (P : string -> list string -> Prop) :
  P "" [""] ->
  (forall s d rest,
     match_marker s = Some (d, rest) -> P rest (re_split rest) ->
     P s ("" :: ("[block:" +:+ d +:+ "]") :: re_split rest)) ->
  (forall c s,
     match_marker (String c s) = None -> P s (re_split s) ->
     P (String c s) (prepend_char c (re_split s))) ->
  forall s, P s (re_split s).
Proof.
  intros Hnil Hmatch Hchar s.
  remember (S (String.length s)) as n eqn:Hn.
  assert (String.length s < n) as Hlt by lia. clear Hn.
  revert s Hlt. induction n as [|n IH]; intros s Hlt; [lia|].
  destruct (match_marker s) as [[d rest]|] eqn:Hm.
  - rewrite (re_split_match _ _ _ Hm). apply Hmatch; [done|].
    apply IH. apply match_marker_shorter in Hm. lia.
  - destruct s as [|c s]; [exact Hnil|].
    rewrite re_split_char by done. apply Hchar; [done|].
    apply IH. cbn in Hlt. lia.
Qed.

Lemma match_marker_app_any (a x d rest : string) :
  match_marker a = Some (d, rest) ->
  match_marker (a +:+ x) = Some (d, rest +:+ x).
Proof.
  intros (-> & Hd & Hne)%match_marker_spec.
  rewrite !string_app_assoc. by apply match_marker_intro.
Qed.

Lemma join_empty_cons (p : string) (tl : list string) :
  Py.join "" (p :: tl) = p +:+ Py.join "" tl.
Proof. destruct tl; [by rewrite string_app_nil_r|done]. Qed.

(** The parts of a split are marker-free texts separated by markers, and
    put together they give the text back. *)
Lemma re_split_shape (s : string) :
  split_shape (re_split s) /\ Py.join "" (re_split s) = s.
Proof.
  apply (re_split_ind (fun s parts => split_shape parts /\ Py.join "" parts = s)).
  - split; [by constructor|done].
  - intros t d rest Hm [Hshape Hjoin].
    apply match_marker_spec in Hm as (-> & Hd & Hne). split.
    + by constructor.
    + rewrite !join_empty_cons, Hjoin. by rewrite !string_app_assoc.
  - intros c t Hm [Hshape Hjoin].
    assert (forall p tl, Py.join "" (p :: tl) = t ->
                         match_marker (String c p) = None) as Hfree.
    { intros p tl Hp. destruct (match_marker (String c p)) as [[d r]|] eqn:E;
        [|done].
      apply (match_marker_app_any _ (Py.join "" tl)) in E.
      rewrite join_empty_cons in Hp. rewrite string_app_cons, Hp in E.
      congruence. }
    inversion Hshape as [p Hp Heq|p d rest Hp Hd Hne Hrest Heq];
      rewrite <- Heq in Hjoin; cbn [prepend_char].
    + split.
      * constructor. rewrite marker_free_unfold, (Hfree p []); done.
      * cbn in *. by rewrite Hjoin.
    + split.
      * constructor; try done.
        rewrite marker_free_unfold, (Hfree p _ Hjoin). done.
      * rewrite join_empty_cons in *. by rewrite string_app_cons, Hjoin.
Qed.

Lemma block_link_shape (parts : list string) :
  split_shape parts -> forallb part_within_limit parts = true ->
  exists spans,
    mapM Limited.block_link parts = Some spans
    /\ span_shape spans /\ span_part <$> spans = parts.
Proof.
  induction 1 as [p Hp|p d rest Hp Hd Hne Hrest IH]; cbn [forallb].
  - intros _. exists [PlainSpan p]. split; [|split; [by constructor|done]].
    apply mapM_Some. repeat constructor.
    rewrite limited_block_link. unfold part_within_limit.
    rewrite marker_free_no_match by done.
    by apply block_link_plain, marker_free_no_match.
  - intros [_ [Hlim Hwithin]%andb_prop]%andb_prop.
    destruct (IH Hwithin) as (spans & Hm & Hs & Hparts).
    pose proof (match_marker_intro d "" Hd Hne) as Hmm.
    change ("[block:" +:+ d +:+ "]" +:+ "") with ("[block:" +:+ d +:+ "]")
      in Hmm.
    unfold part_within_limit in Hlim. rewrite Hmm in Hlim.
    assert (exists i, Limited.int d = Some i /\ (0 <= i)%Z) as (i & Hi & Hpos).
    { rewrite limited_int_digits, Hlim, int_digits_eval by done.
      destruct (uint_of_string_digits d Hd) as [u Hu].
      destruct d as [|c t]; [done|]. cbn in *. rewrite Hu. cbn.
      eexists. split; [done|]. lia. }
    exists (PlainSpan p :: LinkSpan ("[block:" +:+ d +:+ "]") i :: spans).
    split; [|split].
    + apply mapM_Some. constructor.
      { rewrite limited_block_link. unfold part_within_limit.
        rewrite marker_free_no_match by done.
        by apply block_link_plain, marker_free_no_match. }
      constructor; [|by apply mapM_Some].
      unfold Limited.block_link. rewrite Hmm, Hi. done.
    + by constructor.
    + cbn. by rewrite Hparts.
Qed.

(** X7: the decoder returns when every marker of the text has at most 4300
    digits, and then it loses nothing: the parts of the spans, put together
    in order, are the text.  It raises when a marker has more digits. *)
Theorem decoded_parts_rebuild_text (text : string) :
  (markers_within_limit text = true ->
   exists spans,
     Limited.parse_block_links text = Some spans
     /\ Py.join "" (span_part <$> spans) = text)
  /\ (markers_within_limit text = false ->
      Limited.parse_block_links text = None).
Proof.
  split.
  - intros Hw. destruct (re_split_shape text) as [Hshape Hjoin].
    destruct (block_link_shape _ Hshape Hw) as (spans & Hm & _ & Hparts).
    exists spans. split; [exact Hm|]. by rewrite Hparts.
  - intros Hw. by rewrite limited_parse, Hw.
Qed.

Lemma decoded_parts_rebuild_text_witness :
  exists spans,
    Limited.parse_block_links "see [block:12] and [block:x]" = Some spans
    /\ Py.join "" (span_part <$> spans) = "see [block:12] and [block:x]".
Proof.
  apply (proj1 (decoded_parts_rebuild_text "see [block:12] and [block:x]")).
  reflexivity.
Defined.

(** X8: when every marker of the text has at most 4300 digits, the spans
    returned for it start and end with a plain span, and plain and link spans
    alternate; no plain span holds a match of the marker pattern, so every
    marker of the text is a link span; and the index of a link span is the
    number its digits spell, which is not negative. *)
Theorem decoded_spans_shape (text : string) :
  markers_within_limit text = true ->
  exists spans,
    Limited.parse_block_links text = Some spans /\ span_shape spans.
Proof.
  intros Hw. destruct (re_split_shape text) as [Hshape _].
  destruct (block_link_shape _ Hshape Hw) as (spans & Hm & Hs & _).
  by exists spans.
Qed.

Lemma decoded_spans_shape_witness :
  exists spans,
    Limited.parse_block_links "[block:3]Fig 1[block:3]" = Some spans
    /\ span_shape spans.
Proof.
  apply (decoded_spans_shape "[block:3]Fig 1[block:3]"). reflexivity.
Defined.

(** * Properties of the page builder *)

(** ** Grouping by section *)

Section Grouping.

Context {A : Type}.
Implicit Types (d : list (string * list A)) (key : string) (item : A).

Lemma setdefault_append_keys key item d :
  (setdefault_append key item d).*1
  = if decide (key ∈ d.*1) then d.*1 else d.*1 ++ [key].
Proof.
  induction d as [|[k items] d IH]; cbn [setdefault_append].
  { rewrite decide_False; [done|]. cbn. apply not_elem_of_nil. }
  destruct (String.eqb_spec k key) as [->|Hne]; cbn.
  - rewrite decide_True; [done|]. left.
  - rewrite IH. destruct (decide (key ∈ d.*1)) as [Hin|Hnin].
    + rewrite decide_True; [done|]. by right.
    + rewrite decide_False; [done|].
      intros [?|?]%elem_of_cons; congruence.
Qed.

Lemma setdefault_append_items key item d key' :
  items_of key' (setdefault_append key item d)
  = if decide (key = key') then items_of key' d ++ [item] else items_of key' d.
Proof.
  induction d as [|[k items] d IH]; cbn [setdefault_append items_of].
  { destruct (String.eqb_spec key key') as [->|Hne].
    - by rewrite decide_True.
    - by rewrite decide_False. }
  destruct (String.eqb_spec k key) as [->|Hne]; cbn [items_of].
  - destruct (String.eqb_spec key key') as [->|Hne'].
    + by rewrite decide_True.
    + by rewrite decide_False.
  - destruct (String.eqb_spec k key') as [->|Hne'].
    + rewrite decide_False; [done|]. congruence.
    + apply IH.
Qed.

Lemma setdefault_append_nonempty key item d :
  Forall (fun g => g.2 <> []) d ->
  Forall (fun g => g.2 <> []) (setdefault_append key item d).
Proof.
  induction 1 as [|[k items] d Hk Hd IH]; cbn [setdefault_append].
  { repeat constructor. done. }
  destruct (String.eqb k key); constructor; try done.
  cbn. by destruct items.
Qed.

Lemma setdefault_append_perm key item d :
  concat (setdefault_append key item d).*2 ≡ₚ concat d.*2 ++ [item].
Proof.
  induction d as [|[k items] d IH]; cbn [setdefault_append]; [done|].
  destruct (String.eqb k key); cbn.
  - rewrite <- !app_assoc. f_equiv. apply Permutation_app_comm.
  - rewrite IH. by rewrite app_assoc.
Qed.

End Grouping.

Lemma first_seen_spec (keys : list string) :
  NoDup (first_seen keys) /\ forall k, k ∈ first_seen keys <-> k ∈ keys.
Proof.
  induction keys as [|k keys [IH1 IH2]]; cbn [first_seen].
  { split; [constructor|done]. }
  split.
  - constructor; [|by apply NoDup_filter].
    rewrite list_elem_of_filter. by intros [? _].
  - intros k'. rewrite !elem_of_cons, list_elem_of_filter, IH2.
    destruct (decide (k' = k)) as [->|Hne]; [by split; [intros _|]; left|].
    split; [intros [?|[_ ?]]|intros [?|?]]; auto.
Qed.

Lemma group_sections_fold (l : list ContentEntry)
    (d : list (string * list ContentEntry)) :
  let g := fold_left (fun d item => setdefault_append (section item) item d) l d in
  g.*1 = d.*1 ++ filter (fun k => k ∉ d.*1) (first_seen (section <$> l))
  /\ (forall k, items_of k g = items_of k d ++ filter (fun e => section e = k) l)
  /\ (Forall (fun gr => gr.2 <> []) d -> Forall (fun gr => gr.2 <> []) g)
  /\ concat g.*2 ≡ₚ concat d.*2 ++ l.
Proof.
  revert d. induction l as [|e l IH]; intros d; cbn [fold_left].
  { cbn. rewrite !app_nil_r. split; [done|]. split; [|done].
    intros k. by rewrite app_nil_r. }
  destruct (IH (setdefault_append (section e) e d)) as (Hk & Hi & Hn & Hp).
  cbv zeta. split; [|split; [|split]].
  - rewrite Hk, setdefault_append_keys. cbn [fmap list_fmap first_seen].
    destruct (decide (section e ∈ d.*1)) as [Hin|Hnin].
    + rewrite filter_cons_False by (intros ?; done).
      rewrite list_filter_filter_l; [done|]. intros k Hk' ->. done.
    + rewrite filter_cons_True by done. rewrite <- app_assoc. cbn. do 2 f_equal.
      rewrite list_filter_filter. apply list_filter_iff. intros k.
      rewrite elem_of_app, list_elem_of_singleton. tauto.
  - intros k. rewrite Hi, setdefault_append_items.
    destruct (decide (section e = k)) as [Hek|Hek].
    + rewrite filter_cons_True by done. by rewrite <- app_assoc.
    + by rewrite filter_cons_False.
  - intros Hd. by apply Hn, setdefault_append_nonempty.
  - rewrite Hp, setdefault_append_perm. by rewrite <- app_assoc.
Qed.

(** A dictionary with distinct keys is given by its keys and the items
    stored under each. *)
Lemma items_of_eta {A : Type} (g : list (string * list A)) :
  NoDup g.*1 -> g = (fun k => (k, items_of k g)) <$> g.*1.
Proof.
  induction g as [|[k items] g IH]; [done|].
  cbn [fmap list_fmap fst]. intros [Hk Hnd]%NoDup_cons. f_equal.
  - cbn. by rewrite String.eqb_refl.
  - rewrite (IH Hnd) at 1. apply list_fmap_ext. intros i k' Hk'.
    cbn. destruct (String.eqb_spec k k') as [->|_]; [|done].
    exfalso. apply Hk. apply list_elem_of_lookup. eauto.
Qed.

Lemma group_sections_spec (content : list ContentEntry) :
  group_sections content
  = (fun k => (k, filter (fun e => section e = k) content))
    <$> first_seen (section <$> content)
  /\ Forall (fun g => g.2 <> []) (group_sections content)
  /\ concat (group_sections content).*2 ≡ₚ content.
Proof.
  destruct (group_sections_fold content []) as (Hk & Hi & Hn & Hp).
  cbv zeta in *. fold (group_sections content) in *. cbn in Hk, Hi, Hp.
  split; [|split; [by apply Hn|done]].
  assert (filter (fun k => k ∉ []) (first_seen (section <$> content))
          = first_seen (section <$> content)) as Hall.
  { clear. induction (first_seen (section <$> content)) as [|k l IH]; [done|].
    rewrite filter_cons_True by apply not_elem_of_nil. by rewrite IH. }
  rewrite Hall in Hk.
  destruct (first_seen_spec (section <$> content)) as [Hnd _].
  rewrite <- Hk in Hnd. rewrite (items_of_eta _ Hnd) at 1. rewrite Hk.
  apply list_fmap_ext. intros i k _. by rewrite Hi.
Qed.

(** X9: the sections of the page are the distinct sections of the content
    in the order of their first occurrence, and each holds the entries of
    that section, all of them and in content order; so no group is empty
    and the groups together are a rearrangement of the content. *)
Theorem sections_grouped (content : list ContentEntry) :
  group_sections content
  = (fun k => (k, filter (fun e => section e = k) content))
    <$> first_seen (section <$> content)
  /\ Forall (fun g => g.2 <> []) (group_sections content)
  /\ concat (group_sections content).*2 ≡ₚ content.
Proof. apply group_sections_spec. Qed.

(** ** The page *)

(** An inner item is built unless the decoder raises on the text. *)
Lemma build_inner_Some (e : ContentEntry) :
  is_Some (build_inner e) <-> entry_within_limit e = true.
Proof.
  unfold build_inner, entry_within_limit. rewrite <- limited_parse_Some.
  destruct (Limited.parse_block_links (text e)); cbn; split; intros [? ?];
    eauto; done.
Qed.

Lemma mapM_build_inner_Some (l : list ContentEntry) :
  is_Some (mapM build_inner l) <-> Forall (fun e => entry_within_limit e = true) l.
Proof. rewrite mapM_is_Some. apply Forall_iff. intros e. apply build_inner_Some. Qed.

Lemma build_outer_inv (g : string * list ContentEntry) (o : OuterItem) :
  build_outer g = Some o ->
  exists first rest,
    g.2 = first :: rest
    /\ mapM build_inner g.2 = Some (outer_children o)
    /\ outer_title o
       = {| title_text := g.1; title_link := link_index (section_block first) |}
    /\ outer_item_id o = "outeritem-" +:+ section_block first.
Proof.
  unfold build_outer. destruct g.2 as [|first rest]; [done|].
  destruct (mapM build_inner (first :: rest)) as [inner_items|]; [|done].
  cbn. intros [= <-]. by exists first, rest.
Qed.

Lemma build_outer_Some (g : string * list ContentEntry) :
  g.2 <> [] ->
  is_Some (build_outer g) <-> Forall (fun e => entry_within_limit e = true) g.2.
Proof.
  intros Hne. rewrite <- mapM_build_inner_Some. unfold build_outer.
  destruct g.2 as [|first rest]; [done|].
  destruct (mapM build_inner (first :: rest)); cbn; split; intros [? ?];
    eauto; done.
Qed.

(** The builder raises exactly when the decoder raises on the text of an
    entry. *)
Lemma build_page_Some (compiled : StructuredOutput) :
  is_Some (build_nested_compiled_structure_html compiled)
  <-> Forall (fun e => entry_within_limit e = true) (out_content compiled).
Proof.
  destruct (group_sections_spec (out_content compiled)) as (Hg & Hne & _).
  destruct (first_seen_spec (section <$> out_content compiled)) as [_ Hseen].
  transitivity (is_Some (mapM build_outer (group_sections (out_content compiled)))).
  { unfold build_nested_compiled_structure_html.
    destruct (mapM build_outer (group_sections (out_content compiled)));
      cbn; split; intros [? ?]; eauto; done. }
  rewrite mapM_is_Some, !Forall_forall. rewrite Forall_forall in Hne. split.
  - intros H e He.
    assert ((section e, filter (fun e' => section e' = section e)
                          (out_content compiled))
            ∈ group_sections (out_content compiled)) as Hin.
    { rewrite Hg. apply list_elem_of_fmap. exists (section e). split; [done|].
      apply Hseen, list_elem_of_fmap. eauto. }
    pose proof (H _ Hin) as Hsome. apply build_outer_Some in Hsome; [|by apply Hne].
    rewrite Forall_forall in Hsome. apply Hsome. cbn.
    by apply list_elem_of_filter.
  - intros H g Hin. apply build_outer_Some; [by apply Hne|].
    rewrite Hg in Hin. apply list_elem_of_fmap in Hin as (k & -> & _). cbn.
    apply Forall_forall. intros e [_ He]%list_elem_of_filter. by apply H.
Qed.

(** What a page shows: the sections in the order of their first
    occurrence, the entries of each section under it, and the resources. *)
Lemma build_page_shape (compiled : StructuredOutput) (page : Page) :
  build_nested_compiled_structure_html compiled = Some page ->
  (fun o => title_text (outer_title o)) <$> content_items page
  = first_seen (section <$> out_content compiled)
  /\ Forall (fun o =>
               mapM build_inner
                 (filter (fun e => section e = title_text (outer_title o))
                    (out_content compiled))
               = Some (outer_children o))
       (content_items page)
  /\ resource_items page = build_resource <$> out_resources compiled.
Proof.
  destruct (group_sections_spec (out_content compiled)) as (Hg & _ & _).
  unfold build_nested_compiled_structure_html.
  destruct (mapM build_outer (group_sections (out_content compiled)))
    as [outers|] eqn:Hm; [|done].
  cbn. intros [= <-]. cbn [content_items resource_items].
  split; [|split; [|done]].
  - apply mapM_Some in Hm. rewrite Hg in Hm. clear Hg.
    revert outers Hm.
    induction (first_seen (section <$> out_content compiled)) as [|k ks IH];
      intros outers Hm; inversion Hm as [|? o ? os Ho Hrest]; subst; [done|].
    apply build_outer_inv in Ho as (first & rest & _ & _ & Ht & _).
    cbn. rewrite IH by done. by rewrite Ht.
  - apply mapM_Some in Hm. rewrite Hg in Hm. clear Hg.
    revert outers Hm.
    induction (first_seen (section <$> out_content compiled)) as [|k ks IH];
      intros outers Hm; inversion Hm as [|? o ? os Ho Hrest]; subst;
      constructor; [|by apply IH].
    apply build_outer_inv in Ho as (first & rest & _ & Hi & Ht & _).
    cbn in Hi. by rewrite Ht.
Qed.

(** X10: the builder returns a page exactly when no entry text holds a
    marker of more than 4300 digits, on which the decoder raises.  The
    sections of the page are the distinct sections of the content in the
    order of their first occurrence; under each, the inner items are those
    of the entries of that section, all of them and in content order; and
    there is one resource item for each resource. *)
Theorem page_shows_every_entry (compiled : StructuredOutput) :
  (is_Some (build_nested_compiled_structure_html compiled)
   <-> Forall (fun e => entry_within_limit e = true) (out_content compiled))
  /\ forall page,
       build_nested_compiled_structure_html compiled = Some page ->
       (fun o => title_text (outer_title o)) <$> content_items page
       = first_seen (section <$> out_content compiled)
       /\ Forall (fun o =>
                    mapM build_inner
                      (filter (fun e => section e = title_text (outer_title o))
                         (out_content compiled))
                    = Some (outer_children o))
            (content_items page)
       /\ length (resource_items page) = length (out_resources compiled).
Proof.
  split; [apply build_page_Some|].
  intros page Hpage.
  destruct (build_page_shape compiled page Hpage) as (Ht & Hi & Hr).
  split; [done|]. split; [done|]. by rewrite Hr, length_fmap.
Qed.

Lemma page_shows_every_entry_witness :
  exists page,
    build_nested_compiled_structure_html
      (compile_parsed_content mixed_blocks intro_mapping
         default_block_link_format)
    = Some page
    /\ (fun o => title_text (outer_title o)) <$> content_items page
       = ["section_1"; "introduction"]
    /\ length (resource_items page) = 1.
Proof.
  eexists. split; [vm_compute; reflexivity|].
  match goal with
  | |- context [content_items ?page] =>
      destruct (proj2 (page_shows_every_entry
                         (compile_parsed_content mixed_blocks intro_mapping
                            default_block_link_format))
                  page ltac:(vm_compute; reflexivity))
        as (Ht & _ & Hr)
  end.
  split; [exact Ht|exact Hr].
Defined.

(** ** Links of the page *)

Lemma first_digits_skip (c : ascii) (s : string) :
  Py.is_digit c = false -> first_digits (String c s) = first_digits s.
Proof. intros H. cbn [first_digits]. by rewrite H. Qed.

Lemma first_digits_marker (j : nat) : first_digits (marker j) = Some (Py.str j).
Proof.
  rewrite <- (string_app_nil_r (marker j)), marker_unfold.
  cbn [String.append]. rewrite !first_digits_skip by done.
  pose proof (str_digits j) as Hd. pose proof (str_truthy j) as Hn.
  pose proof (take_digits_digits (Py.str j) "]" Hd eq_refl) as Ht.
  destruct (Py.str j) as [|d t] eqn:E; [done|].
  cbn in Hd. apply andb_prop in Hd as [Hd _].
  rewrite string_app_cons in *. cbn [first_digits]. by rewrite Hd, Ht.
Qed.

(** The index of a title link made from a marker is the index of the
    marker; the title has no link when the marker is beyond the limit of
    [int]. *)
Lemma link_index_marker (j : nat) :
  link_index (marker j)
  = if String.length (Py.str j) <=? Limited.int_max_str_digits
    then Some (Z.of_nat j) else None.
Proof.
  unfold link_index.
  rewrite (format_truthy default_block_link_format j : Py.truthy (marker j) = true).
  rewrite first_digits_marker. cbn [mbind option_bind].
  rewrite limited_int_digits;
    [|apply str_digits|apply truthy_true, str_truthy].
  by rewrite int_str.
Qed.

Lemma link_index_marker_Some (j : nat) (i : Z) :
  link_index (marker j) = Some i -> i = Z.of_nat j.
Proof.
  rewrite link_index_marker.
  destruct (String.length (Py.str j) <=? Limited.int_max_str_digits);
    congruence.
Qed.

Lemma build_outer_links (content : list ContentEntry) (g : string * list ContentEntry)
    (o : OuterItem) :
  Forall (fun e => e ∈ content) g.2 ->
  build_outer g = Some o ->
  (exists e, e ∈ content
             /\ title_link (outer_title o) = link_index (section_block e))
  /\ Forall (fun inner =>
               exists e, e ∈ content
                         /\ title_link (inner_title inner)
                            = link_index (subsection_block e))
       (outer_children o).
Proof.
  intros Hsub Ho. unfold build_outer in Ho.
  destruct g.2 as [|first rest] eqn:E; [done|].
  destruct (mapM build_inner (first :: rest)) as [inners|] eqn:Hm; [|done].
  cbn in Ho. injection Ho as <-. cbn. split.
  - exists first. split; [|done]. by inversion Hsub.
  - apply mapM_Some in Hm. clear E.
    induction Hm as [|e inner es inners' He Hes IH]; [constructor|].
    inversion Hsub as [|? ? Hin Hsub']; subst. constructor; [|by apply IH].
    exists e. split; [done|]. unfold build_inner in He.
    destruct (Limited.parse_block_links (text e)); [|done]. cbn in He.
    by injection He as <-.
Qed.

Lemma output_entries_from_headers
    (blocks : list Block) (mapping : gmap string string) (fmt : LinkFormat) :
  Forall (entry_from_headers mapping fmt blocks)
    (out_content (compile_parsed_content blocks mapping fmt)).
Proof.
  unfold compile_parsed_content, finish. cbn [out_content].
  destruct (process_entries mapping fmt blocks [] initial_state) as [Hcur Hall].
  { by exists None, None. }
  { constructor. }
  cbn [length app] in Hcur, Hall.
  set (s := process mapping fmt 0 blocks initial_state) in *.
  pose proof (flush_entries mapping fmt blocks s Hcur Hall) as Hf.
  destruct (content_sections (flush_current_text s)); [|done].
  apply Forall_singleton. rewrite flush_current_entry. exact Hcur.
Qed.

Lemma output_resource_origins
    (blocks : list Block) (mapping : gmap string string) (fmt : LinkFormat) :
  resource_origin <$> out_resources (compile_parsed_content blocks mapping fmt)
  = block_origin <$> resource_blocks 0 blocks.
Proof.
  unfold compile_parsed_content, finish. cbn [out_resources].
  destruct (flush_other (process mapping fmt 0 blocks initial_state))
    as (-> & _).
  by rewrite process_origins.
Qed.

(** X11: on the page built from a compiled document (default format), a
    link on a section or subsection title always carries the position of a
    Section header block of the input, and a link on a resource title the
    position of a Picture or Table block. *)
Theorem page_links_point_to_blocks
    (blocks : list Block) (mapping : gmap string string) (page : Page) :
  build_nested_compiled_structure_html
    (compile_parsed_content blocks mapping default_block_link_format)
  = Some page ->
  Forall (fun o =>
            (forall i, title_link (outer_title o) = Some i ->
               exists j b, i = Z.of_nat j /\ blocks !! j = Some b
                           /\ is_header b = true)
            /\ Forall (fun inner =>
                         forall i, title_link (inner_title inner) = Some i ->
                           exists j b, i = Z.of_nat j /\ blocks !! j = Some b
                                       /\ is_header b = true)
                 (outer_children o))
    (content_items page)
  /\ Forall (fun ritem =>
               forall i, title_link (resource_title ritem) = Some i ->
                 exists j b, i = Z.of_nat j /\ blocks !! j = Some b
                             /\ is_resource b = true)
       (resource_items page).
Proof.
  set (doc := compile_parsed_content blocks mapping default_block_link_format).
  intros Hpage.
  unfold build_nested_compiled_structure_html in Hpage.
  destruct (mapM build_outer (group_sections (out_content doc)))
    as [outers|] eqn:Hm; [|done].
  cbn in Hpage. injection Hpage as <-. cbn [content_items resource_items].
  pose proof (output_entries_from_headers blocks mapping default_block_link_format)
    as Hent. fold doc in Hent. rewrite Forall_forall in Hent.
  assert (Hsec : forall e i, e ∈ out_content doc ->
             link_index (section_block e) = Some i ->
             exists j b, i = Z.of_nat j /\ blocks !! j = Some b
                         /\ is_header b = true).
  { intros e i He Hi. destruct (Hent e He) as (src & _ & Hsrc & _).
    destruct src as [j|].
    - destruct Hsrc as (b & m & Hb & Hh & _ & _ & Hblock).
      rewrite Hblock in Hi.
      change (format default_block_link_format j) with (marker j) in Hi.
      apply link_index_marker_Some in Hi as ->. eauto.
    - destruct Hsrc as [_ Hblock]. by rewrite Hblock in Hi. }
  assert (Hsub : forall e i, e ∈ out_content doc ->
             link_index (subsection_block e) = Some i ->
             exists j b, i = Z.of_nat j /\ blocks !! j = Some b
                         /\ is_header b = true).
  { intros e i He Hi. destruct (Hent e He) as (_ & sub & _ & Hsrc & _).
    destruct sub as [j|].
    - destruct Hsrc as (b & Hb & Hh & _ & Hblock).
      rewrite Hblock in Hi.
      change (format default_block_link_format j) with (marker j) in Hi.
      apply link_index_marker_Some in Hi as ->. eauto.
    - destruct Hsrc as [_ Hblock]. by rewrite Hblock in Hi. }
  split.
  - destruct (group_sections_spec (out_content doc)) as (Hg & _ & _).
    apply mapM_Some in Hm. rewrite Hg in Hm.
    apply Forall2_fmap_l in Hm. apply Forall_forall. intros o Ho.
    apply list_elem_of_lookup in Ho as [n Ho].
    destruct (Forall2_lookup_r _ _ _ _ _ Hm Ho) as (k & _ & Hbuild).
    apply (build_outer_links (out_content doc)) in Hbuild as [(e & He & Hl) Hin].
    + split.
      * intros i Hi. rewrite Hl in Hi. by apply (Hsec e).
      * eapply Forall_impl; [exact Hin|]. cbn.
        intros inner (e' & He' & Hl') i Hi. rewrite Hl' in Hi. by apply (Hsub e').
    + cbn. apply Forall_forall. intros e. by intros [_ ?]%list_elem_of_filter.
  - apply Forall_forall. intros ritem [r [-> Hr]]%list_elem_of_fmap i Hi.
    cbn in Hi. unfold resource_block_idx in Hi.
    destruct (value_truthy (VInt (Z.of_nat (content_block r)))); [|done].
    injection Hi as <-.
    pose proof (output_resource_origins blocks mapping default_block_link_format)
      as Horig. fold doc in Horig.
    assert (resource_origin r ∈ block_origin <$> resource_blocks 0 blocks)
      as Hor.
    { rewrite <- Horig. apply list_elem_of_fmap. eauto. }
    apply list_elem_of_fmap in Hor as ([j b] & Heq & Hjb).
    apply resource_blocks_spec in Hjb as (_ & Hb & Hres).
    rewrite Nat.sub_0_r in Hb.
    unfold resource_origin, block_origin in Heq. cbn in Heq.
    injection Heq as Hj _ _. exists j, b. by rewrite Hj.
Qed.

Lemma page_links_point_to_blocks_witness :
  exists page,
    build_nested_compiled_structure_html
      (compile_parsed_content mixed_blocks intro_mapping
         default_block_link_format)
    = Some page
    /\ Forall (fun o =>
                 (forall i, title_link (outer_title o) = Some i ->
                    exists j b, i = Z.of_nat j /\ mixed_blocks !! j = Some b
                                /\ is_header b = true)
                 /\ Forall (fun inner =>
                              forall i, title_link (inner_title inner) = Some i ->
                                exists j b, i = Z.of_nat j
                                            /\ mixed_blocks !! j = Some b
                                            /\ is_header b = true)
                      (outer_children o))
         (content_items page)
    /\ Forall (fun ritem =>
                 forall i, title_link (resource_title ritem) = Some i ->
                   exists j b, i = Z.of_nat j /\ mixed_blocks !! j = Some b
                               /\ is_resource b = true)
         (resource_items page).
Proof.
  eexists. split; [vm_compute; reflexivity|].
  apply (page_links_point_to_blocks mixed_blocks intro_mapping).
  vm_compute; reflexivity.
Defined.

(** ** Documents on which the builder returns *)




Section WithinLimit.

Context (mapping : gmap string string).






End WithinLimit.



(** * Properties of the page navigation *)

(** ** Facts on [in] and [split] *)













(** ** A click on a block link *)







(** ** The navigation buttons *)

(** X12: a click whose property id names one of the four navigation
    buttons, from a page within [1, total_pages], gives a page within
    [1, total_pages], with the matching page information. *)
Theorem navigation_stays_in_range
    (triggered_id : string) (others : list string) (current_page total_pages : Z)
    (paper : string) (block_pages : gmap string Z) :
  contains "first-page-btn" triggered_id || contains "prev-page-btn" triggered_id
  || contains "next-page-btn" triggered_id || contains "last-page-btn" triggered_id
  = true ->
  (1 <= current_page <= total_pages)%Z ->
  exists n,
    update_page (triggered_id :: others) current_page total_pages (Some paper)
      block_pages
    = Updated n (page_info n total_pages)
    /\ (1 <= n <= total_pages)%Z.
Proof.
  intros Hbtn Hrange. unfold update_page.
  destruct (contains "first-page-btn" triggered_id);
    [eexists; split; [reflexivity|lia]|].
  destruct (contains "prev-page-btn" triggered_id);
    [eexists; split; [reflexivity|lia]|].
  destruct (contains "next-page-btn" triggered_id);
    [eexists; split; [reflexivity|lia]|].
  destruct (contains "last-page-btn" triggered_id);
    [eexists; split; [reflexivity|lia]|].
  done.
Qed.

Lemma navigation_stays_in_range_witness :
  exists n,
    update_page [next_click] 10 10 (Some "paper") ∅
    = Updated n (page_info n 10)
    /\ (1 <= n <= 10)%Z.
Proof.
  apply (navigation_stays_in_range next_click [] 10 10 "paper" ∅);
    [reflexivity|lia].
Defined.

(** X13: from a page that is not the last one, the next-page button
    followed by the previous-page button comes back to the same page, and
    from a page after the first one so does the previous-page button
    followed by the next-page button; at the last page the next-page button
    stays, and at the first page the previous-page button stays. *)
Theorem next_and_prev_undo_each_other
    (current_page total_pages : Z) (paper : string)
    (block_pages : gmap string Z) :
  ((1 <= current_page < total_pages)%Z ->
   exists n,
     new_page_of (update_page [next_click] current_page total_pages
                    (Some paper) block_pages) = Some n
     /\ new_page_of (update_page [prev_click] n total_pages (Some paper)
                       block_pages) = Some current_page)
  /\ ((1 < current_page <= total_pages)%Z ->
      exists n,
        new_page_of (update_page [prev_click] current_page total_pages
                       (Some paper) block_pages) = Some n
        /\ new_page_of (update_page [next_click] n total_pages (Some paper)
                          block_pages) = Some current_page)
  /\ new_page_of (update_page [next_click] total_pages total_pages
                    (Some paper) block_pages) = Some total_pages
  /\ new_page_of (update_page [prev_click] 1 total_pages (Some paper)
                    block_pages) = Some 1%Z.
Proof.
  assert (Hnext : forall c,
             new_page_of (update_page [next_click] c total_pages (Some paper)
                            block_pages)
             = Some (Z.min total_pages (c + 1))) by done.
  assert (Hprev : forall c,
             new_page_of (update_page [prev_click] c total_pages (Some paper)
                            block_pages)
             = Some (Z.max 1 (c - 1))) by done.
  split; [|split; [|split]].
  - intros H. eexists. split; [apply Hnext|]. rewrite Hprev. f_equal. lia.
  - intros H. eexists. split; [apply Hprev|]. rewrite Hnext. f_equal. lia.
  - rewrite Hnext. f_equal. lia.
  - rewrite Hprev. f_equal.
Qed.

Lemma next_and_prev_undo_each_other_witness :
  exists n,
    new_page_of (update_page [next_click] 3 10 (Some "paper") ∅) = Some n
    /\ new_page_of (update_page [prev_click] n 10 (Some "paper") ∅) = Some 3%Z.
Proof.
  apply (proj1 (next_and_prev_undo_each_other 3 10 "paper" ∅)). lia.
Defined.

(** * Properties of loading a paper *)

Lemma fill_block_pages_lookup (blocks : list StoredBlock) (i : nat)
    (block_pages : gmap nat (option Z)) (j : nat) :
  fill_block_pages i blocks block_pages !! j
  = if decide (i <= j < i + length blocks)
    then get_page_number <$> blocks !! (j - i)
    else block_pages !! j.
Proof.
  revert i block_pages. induction blocks as [|b blocks IH]; intros i block_pages.
  { cbn. rewrite decide_False; [done|lia]. }
  cbn [fill_block_pages length]. rewrite IH.
  destruct (decide (S i <= j < S i + length blocks)) as [Hin|Hout].
  - rewrite decide_True by lia.
    replace (j - i) with (S (j - S i)) by lia. done.
  - destruct (decide (j = i)) as [->|Hne].
    + rewrite decide_True by lia. rewrite Nat.sub_diag, lookup_insert_eq. done.
    + rewrite decide_False by lia. by rewrite lookup_insert_ne.
Qed.

Lemma fill_block_pages_table (blocks : list StoredBlock) (j : nat) :
  fill_block_pages 0 blocks ∅ !! j = get_page_number <$> blocks !! j.
Proof.
  rewrite fill_block_pages_lookup. cbn. rewrite Nat.sub_0_r.
  destruct (decide (0 <= j < length blocks)) as [Hin|Hout]; [done|].
  rewrite lookup_empty. symmetry. rewrite lookup_ge_None_2; [done|lia].
Qed.

(** X15: for a selected paper, [load_paper] fails exactly when the page
    builder raises, and otherwise returns the paper, the compiled document,
    its page, the page count and 1 as the current page.  The stored page
    table has an entry for each block position and no other: what the block
    holds under "page_number", be it a number or [None], and 1 when the
    block has no such key.  A paper that is in neither dictionary gives an
    empty page table and the document of the empty sequence.  Without a
    selected paper the stored values are left as they are and the page is
    emptied. *)
Theorem load_paper_page_table
    (segmentation_results : gmap string (list StoredBlock))
    (columns_mapping : gmap string (gmap string string))
    (get_pdf_page_count : string -> Z) (paper : string) :
  let parsed_content := default [] (segmentation_results !! paper) in
  let compiled :=
    compile_parsed_content (stored_block <$> parsed_content)
      (default ∅ (columns_mapping !! paper)) default_block_link_format in
  let outcome :=
    load_paper segmentation_results columns_mapping get_pdf_page_count
      (Some paper) in
  (outcome = LoadRaised
   <-> build_nested_compiled_structure_html compiled = None)
  /\ (forall html,
        build_nested_compiled_structure_html compiled = Some html ->
        exists values,
          outcome = Loaded values
          /\ selected_paper values = paper
          /\ compiled_structure values = compiled
          /\ compiled_html values = html
          /\ total_pages_store values = get_pdf_page_count paper
          /\ current_page_store values = 1%Z
          /\ forall j,
               block_pages_store values !! j
               = (fun block =>
                    match page_number block with
                    | Some stored => stored
                    | None => Some 1%Z
                    end) <$> parsed_content !! j)
  /\ (segmentation_results !! paper = None ->
      exists values,
        outcome = Loaded values
        /\ block_pages_store values = ∅
        /\ compiled_structure values
           = {| out_content :=
                  [{| section := "section_1"; section_block := "";
                      subsection := "subsection_1"; subsection_block := "";
                      text := "" |}];
                out_resources := [] |})
  /\ load_paper segmentation_results columns_mapping get_pdf_page_count None
     = NoPaper.
Proof.
  intros parsed_content compiled outcome.
  split; [|split; [|split; [|done]]].
  - subst outcome. unfold load_paper. fold parsed_content. fold compiled.
    by destruct (build_nested_compiled_structure_html compiled).
  - intros html Hhtml. subst outcome. unfold load_paper.
    fold parsed_content. fold compiled. rewrite Hhtml.
    eexists. split; [reflexivity|]. cbn. repeat (split; [done|]).
    intros j. rewrite fill_block_pages_table. unfold get_page_number.
    destruct (parsed_content !! j) as [block|]; [|done]. cbn.
    by destruct (page_number block).
  - intros Hnone. subst outcome compiled parsed_content. unfold load_paper.
    rewrite Hnone. cbn [default fmap list_fmap].
    eexists. split; [reflexivity|]. done.
Qed.

Lemma load_paper_page_table_witness :
  exists values,
    load_paper stored_papers ∅ (fun _ => 5%Z) (Some "paper") = Loaded values
    /\ block_pages_store values !! 0 = Some (Some 3%Z)
    /\ block_pages_store values !! 1 = Some None
    /\ block_pages_store values !! 2 = Some (Some 1%Z)
    /\ block_pages_store values !! 3 = None.
Proof.
  assert (exists html,
            build_nested_compiled_structure_html
              (compile_parsed_content
                 (stored_block <$> default [] (stored_papers !! "paper"))
                 (default ∅ ((∅ : gmap string (gmap string string)) !! "paper"))
                 default_block_link_format)
            = Some html) as [html Hhtml].
  { eexists. vm_compute. reflexivity. }
  destruct (proj1 (proj2 (load_paper_page_table stored_papers ∅
                            (fun _ => 5%Z) "paper")) html Hhtml)
    as (values & Hl & _ & _ & _ & _ & _ & Htable).
  exists values. split; [exact Hl|]. rewrite !Htable. repeat split.
Defined.

(** * A further property of the resource link *)

